(** * The game loop and collision resolver of [TMNT_Game_Theme/js/engine.js]

    A shallow embedding of the engine: the loop driver ([main], [init],
    [reset]), the per-frame update ([update], [updateEntities]), the
    collision resolver ([checkCollisions]) and the renderer ([render],
    [renderEntities]).

    Numbers.  JavaScript numbers are binary64 floats.  Coordinates and the
    time delta are modelled as exact rationals [Q] (every finite double is a
    rational and the comparisons agree; only rounding is left out); the
    counters [life] and [score] and the millisecond clock are integers [Z].

    Effects.  The engine mutates the shared object [app.ACTORS], two
    variables of its closure ([lastTime], [requestAnimationFrameID]) and the
    browser's list of animation-frame callbacks.  All of it is one [State]
    threaded through every function; the calls the engine makes to its
    collaborators are recorded, in order, in [calls]. *)

From Stdlib Require Import QArith ZArith List String Bool Lia Lqa PeanoNat.
From Stdlib Require Import Floats.PrimFloat.
Import ListNotations.

Set Implicit Arguments.
Local Open Scope Q_scope.

(** ** Actors ([app.ACTORS])

    The engine reads and writes [x], [y], [life], [score] and [notVisible];
    whatever else an actor object holds (sprite, speed, ...) is its private
    data, of a type the engine never looks into. *)

Record Player : Type := mkPlayer {
  px : Q;
  py : Q;
  life : Z;
  score : Z
}.

Record Enemy (D : Type) : Type := mkEnemy {
  ex : Q;
  ey : Q;
  edata : D
}.

Record Gem (D : Type) : Type := mkGem {
  gx : Q;
  gy : Q;
  gdata : D
}.

Record Heart (D : Type) : Type := mkHeart {
  hx : Q;
  hy : Q;
  notVisible : bool;
  hdata : D
}.

(** The methods of the actors and the clock are defined outside engine.js
    (in app.js and by the platform).  They are taken as parameters: each
    method works on its own object ([this]) and may consume randomness or
    time, held in [Env]. *)
Class App : Type := mkApp {
  Env : Type;
  EnemyData : Type;
  GemData : Type;
  HeartData : Type;
  (** [Date.now()] *)
  Date_now : Env -> Z * Env;
  (** [enemy.update(dt)] *)
  Enemy_update : Q -> Enemy EnemyData -> Env -> Enemy EnemyData * Env;
  (** [enemy.newWave()] *)
  Enemy_newWave : Enemy EnemyData -> Env -> Enemy EnemyData * Env;
  (** [gem.update()] *)
  Gem_update : Gem GemData -> Env -> Gem GemData * Env;
  (** [heart.update()] *)
  Heart_update : Heart HeartData -> Env -> Heart HeartData * Env
}.

(** ** Calls made by the engine *)

Inductive Actor : Type :=
| ThePlayer
| TheEnemy (i : nat)
| TheGem
| TheHeart.

Inductive Call : Type :=
| CUpdate (a : Actor) (arg : option Q)  (* a.update(arg); [None]: no argument *)
| CNewWave (i : nat)                    (* allEnemies[i].newWave() *)
| CRender (a : Actor)                   (* a.render() *)
| CRenderText                           (* player.renderText() *)
| CDrawImage (img : string) (x y : Q)   (* ctx.drawImage(Resources.get(img), x, y) *)
| CRequestFrame (h : nat)               (* win.requestAnimationFrame(main), returning h *)
| CCancelFrame (h : option nat).        (* win.cancelAnimationFrame(h); [None]: undefined *)

(** ** The browser's animation-frame callbacks

    Every callback the engine registers is [main], so a pending callback is
    its handle.  [requestAnimationFrame] appends a callback under a fresh
    handle and returns the handle; [cancelAnimationFrame] removes the
    callback of that handle, if it is still pending. *)

Record Window : Type := mkWindow {
  pending : list nat;
  nextHandle : nat
}.

Definition requestAnimationFrame (w : Window) : nat * Window :=
  (nextHandle w,
   {| pending := pending w ++ [nextHandle w]; nextHandle := S (nextHandle w) |}).

Definition cancelAnimationFrame (h : option nat) (w : Window) : Window :=
  match h with
  | Some n =>
      {| pending := filter (fun k => negb (Nat.eqb k n)) (pending w);
         nextHandle := nextHandle w |}
  | None => w
  end.

(** ** Configuration ([app.GAME_CONFIG]) *)

Definition CANVAS_WIDTH : Z := 505.
Definition CANVAS_HEIGHT : Z := 606.

(** ** [between] *)

Definition between (x min max : Q) : bool :=
  Qle_bool min x && Qle_bool x max.

(** The test of the three [if]s of [checkCollisions]: the player against an
    obstacle at [(x, y)]. *)
Definition overlaps (p : Player) (x y : Q) : bool :=
  between (px p) (x - 60) (x + 60) && between (py p) (y - 10) (y + 10).

(** [dt = (now - lastTime) / 1000] *)
Definition deltaTime (now lastTime : Z) : Q :=
  inject_Z (now - lastTime) / 1000.

(** The same line on binary64 floats, as JavaScript evaluates it. *)
Definition deltaTime_binary64 (now lastTime : float) : float :=
  PrimFloat.div (PrimFloat.sub now lastTime) 1000%float.

Section Engine.

Context {app : App}.

Record Actors : Type := mkActors {
  player : Player;
  allEnemies : list (Enemy EnemyData);
  gem : Gem GemData;
  heart : Heart HeartData
}.

Record State : Type := mkState {
  ACTORS : Actors;
  lastTime : Z;
  requestAnimationFrameID : option nat;
  win : Window;
  env : Env;
  calls : list Call
}.

(** *** Field updates *)

Definition set_ACTORS (a : Actors) (s : State) : State :=
  {| ACTORS := a; lastTime := lastTime s;
     requestAnimationFrameID := requestAnimationFrameID s;
     win := win s; env := env s; calls := calls s |}.

Definition set_lastTime (t : Z) (s : State) : State :=
  {| ACTORS := ACTORS s; lastTime := t;
     requestAnimationFrameID := requestAnimationFrameID s;
     win := win s; env := env s; calls := calls s |}.

Definition set_env (e : Env) (s : State) : State :=
  {| ACTORS := ACTORS s; lastTime := lastTime s;
     requestAnimationFrameID := requestAnimationFrameID s;
     win := win s; env := e; calls := calls s |}.

Definition log (cs : list Call) (s : State) : State :=
  {| ACTORS := ACTORS s; lastTime := lastTime s;
     requestAnimationFrameID := requestAnimationFrameID s;
     win := win s; env := env s; calls := calls s ++ cs |}.

Definition set_player (p : Player) (a : Actors) : Actors :=
  {| player := p; allEnemies := allEnemies a; gem := gem a; heart := heart a |}.

Definition set_gem (g : Gem GemData) (a : Actors) : Actors :=
  {| player := player a; allEnemies := allEnemies a; gem := g; heart := heart a |}.

Definition set_heart (h : Heart HeartData) (a : Actors) : Actors :=
  {| player := player a; allEnemies := allEnemies a; gem := gem a; heart := h |}.

Definition set_position (x y : Q) (p : Player) : Player :=
  {| px := x; py := y; life := life p; score := score p |}.

Definition set_life (n : Z) (p : Player) : Player :=
  {| px := px p; py := py p; life := n; score := score p |}.

Definition set_score (n : Z) (p : Player) : Player :=
  {| px := px p; py := py p; life := life p; score := n |}.

Definition set_hx (x : Q) (h : Heart HeartData) : Heart HeartData :=
  {| hx := x; hy := hy h; notVisible := notVisible h; hdata := hdata h |}.

Definition set_notVisible (b : bool) (h : Heart HeartData) : Heart HeartData :=
  {| hx := hx h; hy := hy h; notVisible := b; hdata := hdata h |}.

(** *** Loops over [allEnemies]

    [allEnemies.forEach(function(enemy) { enemy.m(); })] with a method that
    works on its own object: the enemies are visited in order and the
    environment is passed along. *)
Fixpoint forEach_own (m : Enemy EnemyData -> Env -> Enemy EnemyData * Env)
    (es : list (Enemy EnemyData)) (e : Env) : list (Enemy EnemyData) * Env :=
  match es with
  | [] => ([], e)
  | x :: rest =>
      let (x', e1) := m x e in
      let (rest', e2) := forEach_own m rest e1 in
      (x' :: rest', e2)
  end.

(** [allEnemies.forEach(callback)] with a callback that may change any part
    of the state (the one of [checkCollisions] calls [init]): the indices
    [0 .. length-1] are visited in order, the length being read once, and
    each enemy is read from the state as it is when its turn comes.  [None]
    is a call stack that ran out (see [main]). *)
Fixpoint forEach_index (body : nat -> State -> option State)
    (indices : list nat) (s : State) : option State :=
  match indices with
  | [] => Some s
  | i :: rest =>
      match body i s with
      | Some s' => forEach_index body rest s'
      | None => None
      end
  end.

Definition enemy_indices (s : State) : list nat :=
  seq 0 (List.length (allEnemies (ACTORS s))).

(** *** [reset] *)

Definition reset (s : State) : State :=
  let a := ACTORS s in
  let p := set_position 200 350 (player a) in
  let h := set_hx (-100) (heart a) in
  let (es, e) := forEach_own Enemy_newWave (allEnemies a) (env s) in
  {| ACTORS := {| player := p; allEnemies := es; gem := gem a; heart := h |};
     lastTime := lastTime s;
     requestAnimationFrameID := requestAnimationFrameID s;
     win := cancelAnimationFrame (requestAnimationFrameID s) (win s);
     env := e;
     calls := calls s ++ map CNewWave (seq 0 (List.length (allEnemies a)))
                      ++ [CCancelFrame (requestAnimationFrameID s)] |}.

(** *** [updateEntities] *)

Definition updateEntities (dt : Q) (s : State) : State :=
  let a := ACTORS s in
  let (es, e1) := forEach_own (Enemy_update dt) (allEnemies a) (env s) in
  let (h, e2) := Heart_update (heart a) e1 in
  {| ACTORS := {| player := player a; allEnemies := es; gem := gem a; heart := h |};
     lastTime := lastTime s;
     requestAnimationFrameID := requestAnimationFrameID s;
     win := win s;
     env := e2;
     calls := calls s
              ++ map (fun i => CUpdate (TheEnemy i) (Some dt))
                     (seq 0 (List.length (allEnemies a)))
              ++ [CUpdate TheHeart None] |}.

(** *** [render] and [renderEntities] *)

Definition rowImages : list string :=
  [ "images/water-block.png"; "images/stone-block.png";
    "images/stone-block.png"; "images/stone-block.png";
    "images/grass-block.png"; "images/grass-block.png" ]%string.

Definition numRows : nat := 6.
Definition numCols : nat := 5.

Definition drawGrid : list Call :=
  flat_map (fun row =>
    map (fun col =>
           CDrawImage (nth row rowImages ""%string)
                      (inject_Z (Z.of_nat col * 101))
                      (inject_Z (Z.of_nat row * 83)))
        (seq 0 numCols))
    (seq 0 numRows).

Definition renderEntities (s : State) : State :=
  log ([CRender TheGem; CRender TheHeart]
       ++ map (fun i => CRender (TheEnemy i))
              (seq 0 (List.length (allEnemies (ACTORS s))))
       ++ [CRenderText; CRender ThePlayer]) s.

Definition render (s : State) : State :=
  renderEntities (log drawGrid s).

(** *** [checkCollisions]

    [init] is passed in: [checkCollisions], [update], [main] and [init] call
    each other, and the recursion is tied in [main] below. *)

Definition dec_life (s : State) : State :=
  let a := ACTORS s in
  set_ACTORS (set_player (set_life (life (player a) - 1) (player a)) a) s.

Definition inc_life (s : State) : State :=
  let a := ACTORS s in
  set_ACTORS (set_player (set_life (life (player a) + 1) (player a)) a) s.

Definition inc_score (s : State) : State :=
  let a := ACTORS s in
  set_ACTORS (set_player (set_score (score (player a) + 1) (player a)) a) s.

(** [gem.update()] *)
Definition call_gem_update (s : State) : State :=
  let a := ACTORS s in
  let (g, e) := Gem_update (gem a) (env s) in
  log [CUpdate TheGem None] (set_env e (set_ACTORS (set_gem g a) s)).

(** [heart.notVisible = true] *)
Definition hide_heart (s : State) : State :=
  let a := ACTORS s in
  set_ACTORS (set_heart (set_notVisible true (heart a)) a) s.

Definition enemy_check (init : State -> option State) (i : nat) (s : State)
  : option State :=
  match nth_error (allEnemies (ACTORS s)) i with
  | Some enemy =>
      if overlaps (player (ACTORS s)) (ex enemy) (ey enemy)
      then init (dec_life s)
      else Some s
  | None => Some s
  end.

Definition gem_check (init : State -> option State) (s : State) : option State :=
  let a := ACTORS s in
  if overlaps (player a) (gx (gem a)) (gy (gem a))
  then init (call_gem_update (inc_score s))
  else Some s.

Definition heart_check (s : State) : State :=
  let a := ACTORS s in
  if overlaps (player a) (hx (heart a)) (hy (heart a))
  then reset (hide_heart (inc_life s))
  else s.

Definition checkCollisions_with (init : State -> option State) (s : State)
  : option State :=
  match forEach_index (enemy_check init) (enemy_indices s) s with
  | Some s1 =>
      match gem_check init s1 with
      | Some s2 => Some (heart_check s2)
      | None => None
      end
  | None => None
  end.

(** *** [update], [main] and [init] *)

Definition update_with (init : State -> option State) (dt : Q) (s : State)
  : option State :=
  checkCollisions_with init (updateEntities dt s).

(** [Date.now()] *)
Definition read_clock (s : State) : Z * State :=
  let (t, e) := Date_now (env s) in (t, set_env e s).

(** [requestAnimationFrameID = win.requestAnimationFrame(main)] *)
Definition schedule (s : State) : State :=
  let (h, w) := requestAnimationFrame (win s) in
  {| ACTORS := ACTORS s; lastTime := lastTime s;
     requestAnimationFrameID := Some h;
     win := w; env := env s; calls := calls s ++ [CRequestFrame h] |}.

(** The rest of [main] once [update(dt)] has returned. *)
Definition finish_frame (now : Z) (s : State) : State :=
  schedule (set_lastTime now (render s)).

Definition main_with (init : State -> option State) (s : State) : option State :=
  let (now, s1) := read_clock s in
  let dt := deltaTime now (lastTime s1) in
  match update_with init dt s1 with
  | Some s2 => Some (finish_frame now s2)
  | None => None
  end.

(** [reset(); lastTime = Date.now();], the part of [init] before [main()]. *)
Definition init_begin (s : State) : State :=
  let (t, s1) := read_clock (reset s) in set_lastTime t s1.

Definition init_with (main : State -> option State) (s : State) : option State :=
  main (init_begin s).

(** [main] calls [update], which calls [checkCollisions], which may call
    [init], which calls [main]: [fuel] bounds the depth of that recursion
    (the JavaScript call stack), and [None] is the stack running out. *)
Fixpoint main (fuel : nat) (s : State) : option State :=
  match fuel with
  | O => None
  | S fuel' => main_with (init_with (main fuel')) s
  end.

Definition init (fuel : nat) (s : State) : option State :=
  init_with (main fuel) s.

Definition checkCollisions (fuel : nat) (s : State) : option State :=
  checkCollisions_with (init fuel) s.

Definition update (fuel : nat) (dt : Q) (s : State) : option State :=
  update_with (init fuel) dt s.

(** The browser takes up the callback of handle [h]: it leaves the list. *)
Definition take_callback (h : nat) (s : State) : State :=
  {| ACTORS := ACTORS s; lastTime := lastTime s;
     requestAnimationFrameID := requestAnimationFrameID s;
     win := {| pending := filter (fun k => negb (Nat.eqb k h)) (pending (win s));
               nextHandle := nextHandle (win s) |};
     env := env s; calls := calls s |}.

(** A frame: the callback of handle [h] runs, if it is still pending. *)
Definition fire (fuel : nat) (h : nat) (s : State) : option State :=
  if existsb (Nat.eqb h) (pending (win s))
  then main fuel (take_callback h s)
  else Some s.

(** *** Notions used in the statements *)

(** Some enemy's tolerance box contains the player. *)
Definition enemy_hit (a : Actors) : bool :=
  existsb (fun e => overlaps (player a) (ex e) (ey e)) (allEnemies a).

Definition gem_hit (a : Actors) : bool :=
  overlaps (player a) (gx (gem a)) (gy (gem a)).

Definition heart_hit (a : Actors) : bool :=
  overlaps (player a) (hx (heart a)) (hy (heart a)).

(** No tolerance box contains the player. *)
Definition quiet (a : Actors) : bool :=
  negb (enemy_hit a) && negb (gem_hit a) && negb (heart_hit a).

(** The state in which [update] runs the resolver during a frame that
    starts in [s]: the clock has been read and the actors have advanced. *)
Definition advanced (s : State) : State :=
  let (now, s1) := read_clock s in
  updateEntities (deltaTime now (lastTime s1)) s1.

(** The state in which the resolver runs inside [init()] called in [s]:
    after [reset], after both readings of the clock and after the actors
    have advanced. *)
Definition respawned (s : State) : State :=
  advanced (init_begin s).

(** What [init()] called in [s] leaves when that resolver finds nothing. *)
Definition reinit (s : State) : State :=
  let (now, s1) := read_clock (init_begin s) in
  finish_frame now (updateEntities (deltaTime now (lastTime s1)) s1).

(** The calls of one [render()] over [n] enemies. *)
Definition render_calls (n : nat) : list Call :=
  drawGrid
  ++ [CRender TheGem; CRender TheHeart]
  ++ map (fun i => CRender (TheEnemy i)) (seq 0 n)
  ++ [CRenderText; CRender ThePlayer].

(** The calls of [enemy.update(dt)] over [n] enemies and [heart.update()]. *)
Definition advance_calls (dt : Q) (n : nat) : list Call :=
  map (fun i => CUpdate (TheEnemy i) (Some dt)) (seq 0 n)
  ++ [CUpdate TheHeart None].

(** The calls of [reset()] over [n] enemies, [h] being the handle held. *)
Definition reset_calls (n : nat) (h : option nat) : list Call :=
  map CNewWave (seq 0 n) ++ [CCancelFrame h].

(** [s'] has the calls of [s] and, after them, those made since. *)
Definition extends (s s' : State) : Prop :=
  exists later : list Call, calls s' = calls s ++ later.

Definition is_gem_update (c : Call) : bool :=
  match c with
  | CUpdate TheGem _ => true
  | _ => false
  end.

Definition is_request (c : Call) : bool :=
  match c with
  | CRequestFrame _ => true
  | _ => false
  end.



End Engine.

(** ** A sample application

    Stand-ins for the actors of app.js, used to run the engine on concrete
    worlds: an enemy moves right at its own speed and starts a new wave from
    [x = -100] once it has left the canvas; a collected gem moves to the next
    of a few spots; the heart's per-frame update leaves it where it is; the
    clock is read from the environment. *)
Module Sample.

Record SampleEnv : Type := mkEnv {
  clock : Z;
  rolls : nat
}.

Definition date_now (e : SampleEnv) : Z * SampleEnv := (clock e, e).

Definition newWave (en : Enemy Q) (e : SampleEnv) : Enemy Q * SampleEnv :=
  ({| ex := -100; ey := ey en;
      edata := 100 + inject_Z (Z.of_nat (Nat.modulo (rolls e) 3)) * 50 |},
   {| clock := clock e; rolls := S (rolls e) |}).

Definition enemy_update (dt : Q) (en : Enemy Q) (e : SampleEnv)
  : Enemy Q * SampleEnv :=
  let x := Qred (ex en + edata en * dt) in
  if Qle_bool x 505
  then ({| ex := x; ey := ey en; edata := edata en |}, e)
  else newWave en e.

Definition gem_update (g : Gem unit) (e : SampleEnv) : Gem unit * SampleEnv :=
  ({| gx := inject_Z (Z.of_nat (Nat.modulo (rolls e) 5)) * 100;
      gy := 70 + inject_Z (Z.of_nat (Nat.modulo (rolls e) 3)) * 70;
      gdata := tt |},
   {| clock := clock e; rolls := S (rolls e) |}).

Definition heart_update (h : Heart unit) (e : SampleEnv)
  : Heart unit * SampleEnv := (h, e).

#[export] Instance sample : App := {|
  Env := SampleEnv;
  EnemyData := Q;
  GemData := unit;
  HeartData := unit;
  Date_now := date_now;
  Enemy_update := enemy_update;
  Enemy_newWave := newWave;
  Gem_update := gem_update;
  Heart_update := heart_update
|}.

(** The three enemies of [app.ACTORS], on the rows 70, 140 and 210. *)
Definition enemies_at (x : Q) : list (Enemy Q) :=
  [ {| ex := x; ey := 70; edata := 100 |};
    {| ex := x; ey := 140; edata := 150 |};
    {| ex := x; ey := 210; edata := 200 |} ].

(** A world: the player at [(x, y)], the enemies at [x = ex0], the gem at
    [(gx0, gy0)], the heart at [(hx0, hy0)]; one frame callback (handle 0)
    has been scheduled and has just been taken up by the browser. *)
Definition world (x y ex0 gx0 gy0 hx0 hy0 : Q) (last now : Z) : State :=
  {| ACTORS := {| player := {| px := x; py := y; life := 3; score := 0 |};
                  allEnemies := enemies_at ex0;
                  gem := {| gx := gx0; gy := gy0; gdata := tt |};
                  heart := {| hx := hx0; hy := hy0; notVisible := false; hdata := tt |} |};
     lastTime := last;
     requestAnimationFrameID := Some 0%nat;
     win := {| pending := []; nextHandle := 1 |};
     env := {| clock := now; rolls := 0 |};
     calls := [] |}.

(** The player stands on the first enemy, at (70, 70). *)
Definition enemy_world : State :=
  world 70 70 70 300 140 (-100) 210 1000 1016.

(** The player stands on the gem, at (300, 300); the enemies are off-screen. *)
Definition gem_world : State :=
  world 300 300 (-100) 300 300 (-100) 210 1000 1016.

(** The player stands on the heart, at (300, 210). *)
Definition heart_world : State :=
  world 300 210 (-100) 0 70 300 210 1000 1016.

(** The player stands on the first enemy and on the gem, both at (70, 70). *)
Definition enemy_gem_world : State :=
  world 70 70 70 70 70 (-100) 210 1000 1016.

(** The player stands on the first enemy and on the heart, both at (70, 70). *)
Definition enemy_heart_world : State :=
  world 70 70 70 300 140 70 70 1000 1016.

(** The player is about to be reached by the first enemy: the loop is
    running, its one callback (handle 0) is pending. *)
Definition running_world : State :=
  {| ACTORS := ACTORS (world 70 70 70 300 140 (-100) 210 1000 1016);
     lastTime := 1000;
     requestAnimationFrameID := Some 0%nat;
     win := {| pending := [0%nat]; nextHandle := 1 |};
     env := {| clock := 1016; rolls := 0 |};
     calls := [] |}.

(** The world when the images have loaded and [init] is about to be
    called for the first time: nothing is scheduled. *)
Definition start_world : State :=
  {| ACTORS := ACTORS (world 200 350 (-100) 300 140 (-100) 210 0 1000);
     lastTime := 0;
     requestAnimationFrameID := None;
     win := {| pending := []; nextHandle := 0 |};
     env := {| clock := 1000; rolls := 0 |};
     calls := [] |}.

(** Between two frames: the key handler has moved the player to [(x, y)]
    and the clock shows [t]. *)
Definition input (x y : Q) (t : Z) (s : State) : State :=
  {| ACTORS := {| player := {| px := x; py := y;
                               life := life (player (ACTORS s));
                               score := score (player (ACTORS s)) |};
                  allEnemies := allEnemies (ACTORS s);
                  gem := gem (ACTORS s);
                  heart := heart (ACTORS s) |};
     lastTime := lastTime s;
     requestAnimationFrameID := requestAnimationFrameID s;
     win := win s;
     env := {| clock := t; rolls := rolls (env s) |};
     calls := calls s |}.

End Sample.

(** ** Start-up

    The images handed to [Resources.load] before [Resources.onReady(init)]
    starts the game. *)
Definition preloaded : list string :=
  [ "images/stone-block.png"; "images/water-block.png";
    "images/grass-block.png"; "images/shredder-ico.png";
    "images/leo-ico.png"; "images/pizza-ico.png"; "images/money-ico.png";
    "images/TurtleVan-ico.png"; "images/pizza-box.png";
    "images/Casey-Jones.png"; "images/splinter-ico.png";
    "images/logo-ico.png"; "images/april-ico.png"; "images/fsoldier2.png";
    "images/100pts.png"; "images/baxter.png"; "images/bebop.png";
    "images/Rocksteady2.png"; "images/krang.png"; "images/raph-ico.png";
    "images/150pts.png"; "images/manhole-game-ico.png"; "images/200pts.png";
    "images/RiggsCat.png"; "images/boo.png"; "images/shark.png";
    "images/pizzacomp.png"; "images/Heart.png" ]%string.

(** The handles of a window are in order: no callback is pending twice and
    every pending handle was issued before the next one to come. *)
Definition handles_fresh (w : Window) : Prop :=
  NoDup (pending w) /\ forall k, In k (pending w) -> (k < nextHandle w)%nat.

(** ** An application whose respawn is never safe

    Stand-ins for actors that a careless app.js could define: [newWave]
    puts the enemy on the player's spawn point and [update] leaves it
    there. *)
Module Stuck.

Definition date_now (e : unit) : Z * unit := (0%Z, e).

Definition newWave (en : Enemy unit) (e : unit) : Enemy unit * unit :=
  ({| ex := 200; ey := 350; edata := tt |}, e).

Definition enemy_update (dt : Q) (en : Enemy unit) (e : unit)
  : Enemy unit * unit := (en, e).

Definition gem_update (g : Gem unit) (e : unit) : Gem unit * unit := (g, e).

Definition heart_update (h : Heart unit) (e : unit) : Heart unit * unit :=
  (h, e).

#[export] Instance stuck : App := {|
  Env := unit;
  EnemyData := unit;
  GemData := unit;
  HeartData := unit;
  Date_now := date_now;
  Enemy_update := enemy_update;
  Enemy_newWave := newWave;
  Gem_update := gem_update;
  Heart_update := heart_update
|}.

(** One enemy far from the player; nothing scheduled yet. *)
Definition world : State :=
  {| ACTORS := {| player := {| px := 200; py := 350; life := 3; score := 0 |};
                  allEnemies := [ {| ex := -100; ey := 70; edata := tt |} ];
                  gem := {| gx := 300; gy := 140; gdata := tt |};
                  heart := {| hx := -100; hy := 210; notVisible := false;
                              hdata := tt |} |};
     lastTime := 0;
     requestAnimationFrameID := None;
     win := {| pending := []; nextHandle := 0 |};
     env := tt;
     calls := [] |}.

End Stuck.

(** ** More sample worlds *)
Module Scenes.

(** The loop is running in [s]: its one callback (handle 0) is pending. *)
Definition running (s : @State Sample.sample) : @State Sample.sample :=
  {| ACTORS := ACTORS s;
     lastTime := lastTime s;
     requestAnimationFrameID := Some 0%nat;
     win := {| pending := [0%nat]; nextHandle := 1 |};
     env := env s;
     calls := calls s |}.

(** The loop is running and the player is back on its row: no box
    contains it. *)
Definition quiet_world : State :=
  Sample.input 200 350 1016 Sample.running_world.

Definition heart_world : State := running Sample.heart_world.

Definition gem_world : State := running Sample.gem_world.

End Scenes.

(** * Properties *)

Section Properties.

Context {app : App}.

(** ** The tolerance box *)





(** ** Loops over the enemies *)

Lemma forEach_own_length m (es : list (Enemy EnemyData)) (e : Env) :
  List.length (fst (forEach_own m es e)) = List.length es.
Proof.
  revert e. induction es as [|x rest IH]; intro e; simpl.
  - reflexivity.
  - destruct (m x e) as [x' e1]. specialize (IH e1).
    destruct (forEach_own m rest e1) as [rest' e2]. simpl in *. now rewrite IH.
Qed.

Lemma forEach_index_idle body (indices : list nat) (s : State) :
  (forall i, body i s = Some s) -> forEach_index body indices s = Some s.
Proof.
  intro H. induction indices as [|i rest IH]; simpl.
  - reflexivity.
  - rewrite H. exact IH.
Qed.

(** ** [reset] *)

Lemma reset_ACTORS (s : State) :
  ACTORS (reset s)
  = {| player := set_position 200 350 (player (ACTORS s));
       allEnemies := fst (forEach_own Enemy_newWave (allEnemies (ACTORS s)) (env s));
       gem := gem (ACTORS s);
       heart := set_hx (-100) (heart (ACTORS s)) |}.
Proof.
  unfold reset. destruct (forEach_own _ _ _). reflexivity.
Qed.

Lemma reset_win (s : State) :
  win (reset s) = cancelAnimationFrame (requestAnimationFrameID s) (win s).
Proof.
  unfold reset. destruct (forEach_own _ _ _). reflexivity.
Qed.

Lemma reset_handle (s : State) :
  requestAnimationFrameID (reset s) = requestAnimationFrameID s.
Proof.
  unfold reset. destruct (forEach_own _ _ _). reflexivity.
Qed.

Lemma reset_lastTime (s : State) : lastTime (reset s) = lastTime s.
Proof.
  unfold reset. destruct (forEach_own _ _ _). reflexivity.
Qed.

Lemma reset_calls_eq (s : State) :
  calls (reset s)
  = calls s ++ reset_calls (List.length (allEnemies (ACTORS s)))
                           (requestAnimationFrameID s).
Proof.
  unfold reset, reset_calls. destruct (forEach_own _ _ _). reflexivity.
Qed.

Lemma reset_enemies_length (s : State) :
  List.length (allEnemies (ACTORS (reset s)))
  = List.length (allEnemies (ACTORS s)).
Proof.
  rewrite reset_ACTORS. simpl. apply forEach_own_length.
Qed.

(** C10.  [reset] writes the player's position, the heart's [x], the
    enemies (through [newWave]) and the browser's pending callbacks; the
    player's [life] and [score], the heart's [notVisible] and [y], the gem,
    [lastTime] and the number of enemies stay as they were, so the change
    of [life] or [score] made just before a reset survives it. *)
Theorem reset_frame (s : State) :
  player (ACTORS (reset s)) = set_position 200 350 (player (ACTORS s))
  /\ heart (ACTORS (reset s)) = set_hx (-100) (heart (ACTORS s))
  /\ life (player (ACTORS (reset s))) = life (player (ACTORS s))
  /\ score (player (ACTORS (reset s))) = score (player (ACTORS s))
  /\ notVisible (heart (ACTORS (reset s))) = notVisible (heart (ACTORS s))
  /\ hy (heart (ACTORS (reset s))) = hy (heart (ACTORS s))
  /\ hdata (heart (ACTORS (reset s))) = hdata (heart (ACTORS s))
  /\ gem (ACTORS (reset s)) = gem (ACTORS s)
  /\ lastTime (reset s) = lastTime s
  /\ List.length (allEnemies (ACTORS (reset s)))
     = List.length (allEnemies (ACTORS s))
  /\ life (player (ACTORS (reset (dec_life s)))) = (life (player (ACTORS s)) - 1)%Z
  /\ life (player (ACTORS (reset (hide_heart (inc_life s)))))
     = (life (player (ACTORS s)) + 1)%Z
  /\ score (player (ACTORS (reset (inc_score s)))) = (score (player (ACTORS s)) + 1)%Z.
Proof.
  rewrite reset_lastTime, reset_enemies_length, !reset_ACTORS. simpl.
  repeat split.
Qed.

(** ** Pending callbacks *)

Lemma cancel_twice (h : option nat) (w : Window) :
  cancelAnimationFrame h (cancelAnimationFrame h w) = cancelAnimationFrame h w.
Proof.
  destruct h as [n|]; simpl; [|reflexivity].
  f_equal. induction (pending w) as [|k l IH]; simpl; [reflexivity|].
  destruct (Nat.eqb k n) eqn:E; simpl; [exact IH|].
  rewrite E. simpl. now rewrite IH.
Qed.

Lemma cancel_pending_In (n k : nat) (w : Window) :
  In k (pending (cancelAnimationFrame (Some n) w)) <->
  In k (pending w) /\ k <> n.
Proof.
  simpl. rewrite filter_In, negb_true_iff, Nat.eqb_neq. tauto.
Qed.

Lemma cancel_pending_length (h : option nat) (w : Window) :
  (List.length (pending (cancelAnimationFrame h w)) <= List.length (pending w))%nat.
Proof.
  destruct h as [n|]; simpl; [apply filter_length_le | apply Nat.le_refl].
Qed.

(** C3, as the code has it.  [reset] schedules nothing: it cancels the
    callback of the handle it holds.  Two calls in a row leave the pending
    callbacks that one call leaves, namely those of the state before
    without the one of the handle: never more than before, none under the
    handle, and none at all when the only pending callback was the one of
    the handle. *)
Theorem reset_twice_pending (s : State) :
  win (reset (reset s)) = win (reset s)
  /\ win (reset s) = cancelAnimationFrame (requestAnimationFrameID s) (win s)
  /\ (List.length (pending (win (reset (reset s))))
      <= List.length (pending (win s)))%nat
  /\ filter is_request (reset_calls (List.length (allEnemies (ACTORS s)))
                                    (requestAnimationFrameID s)) = []
  /\ (forall h, requestAnimationFrameID s = Some h ->
                ~ In h (pending (win (reset (reset s)))))
  /\ (forall h, requestAnimationFrameID s = Some h ->
                pending (win s) = [h] ->
                pending (win (reset (reset s))) = []).
Proof.
  assert (E : win (reset (reset s)) = win (reset s)).
  { rewrite (reset_win (reset s)), reset_handle, reset_win. apply cancel_twice. }
  rewrite E, reset_win. repeat split.
  - apply cancel_pending_length.
  - unfold reset_calls. rewrite filter_app. simpl. rewrite app_nil_r.
    induction (seq 0 _) as [|i l IH]; simpl; auto.
  - intros h Hh Hin. rewrite Hh in Hin. apply cancel_pending_In in Hin.
    now destruct Hin.
  - intros h Hh Hp. rewrite Hh. simpl. rewrite Hp. simpl.
    now rewrite Nat.eqb_refl.
Qed.

(** ** Frames that find nothing *)

Lemma quiet_spec (a : Actors) :
  quiet a = true <->
  enemy_hit a = false /\ gem_hit a = false /\ heart_hit a = false.
Proof.
  unfold quiet. rewrite !andb_true_iff, !negb_true_iff. tauto.
Qed.

Lemma existsb_false_In {A : Type} (f : A -> bool) (l : list A) (x : A) :
  existsb f l = false -> In x l -> f x = false.
Proof.
  intros H Hin. destruct (f x) eqn:E; [|reflexivity].
  rewrite <- H. symmetry. apply existsb_exists. now exists x.
Qed.

Lemma enemy_check_idle init (s : State) :
  enemy_hit (ACTORS s) = false -> forall i, enemy_check init i s = Some s.
Proof.
  intros H i. unfold enemy_check.
  destruct (nth_error (allEnemies (ACTORS s)) i) as [e|] eqn:E; [|reflexivity].
  apply nth_error_In in E.
  now rewrite (existsb_false_In _ _ e H E).
Qed.

Lemma heart_check_idle (s : State) :
  heart_hit (ACTORS s) = false -> heart_check s = s.
Proof.
  unfold heart_check, heart_hit. now intros ->.
Qed.

Lemma gem_check_idle init (s : State) :
  gem_hit (ACTORS s) = false -> gem_check init s = Some s.
Proof.
  unfold gem_check, gem_hit. now intros ->.
Qed.

Lemma checkCollisions_quiet init (s : State) :
  quiet (ACTORS s) = true -> checkCollisions_with init s = Some s.
Proof.
  intro H. apply quiet_spec in H. destruct H as (He & Hg & Hh).
  unfold checkCollisions_with.
  rewrite (forEach_index_idle _ _ (enemy_check_idle init s He)).
  rewrite (gem_check_idle init s Hg). now rewrite (heart_check_idle s Hh).
Qed.

(** The enemy loop when some enemy's box contains the player: the first
    such enemy calls [init]; if that call leaves a state in which no
    enemy's box contains the player, the later enemies find nothing. *)
Lemma enemy_loop_first_hit init (s s1 : State) :
  init (dec_life s) = Some s1 ->
  enemy_hit (ACTORS s1) = false ->
  forall suffix prefix,
    allEnemies (ACTORS s) = prefix ++ suffix ->
    existsb (fun e => overlaps (player (ACTORS s)) (ex e) (ey e)) suffix = true ->
    forEach_index (enemy_check init)
                  (seq (List.length prefix) (List.length suffix)) s = Some s1.
Proof.
  intros Hinit Hidle. induction suffix as [|e rest IH]; intros prefix Hsplit Hex.
  - discriminate.
  - simpl. unfold enemy_check at 1.
    rewrite Hsplit, nth_error_app2, Nat.sub_diag by apply Nat.le_refl. simpl.
    destruct (overlaps (player (ACTORS s)) (ex e) (ey e)) eqn:E.
    + rewrite Hinit. apply forEach_index_idle. now apply enemy_check_idle.
    + simpl in Hex. rewrite E in Hex. simpl in Hex.
      specialize (IH (prefix ++ [e])).
      rewrite length_app, Nat.add_comm in IH. simpl in IH. apply IH; [|exact Hex].
      now rewrite <- app_assoc.
Qed.

Lemma enemy_loop_hit init (s s1 : State) :
  enemy_hit (ACTORS s) = true ->
  init (dec_life s) = Some s1 ->
  enemy_hit (ACTORS s1) = false ->
  forEach_index (enemy_check init) (enemy_indices s) s = Some s1.
Proof.
  intros Hhit Hinit Hidle.
  exact (enemy_loop_first_hit init s Hinit Hidle (allEnemies (ACTORS s)) []
           eq_refl Hhit).
Qed.

(** ** [init] when the respawned world is quiet *)

Lemma cancel_nextHandle (h : option nat) (w : Window) :
  nextHandle (cancelAnimationFrame h w) = nextHandle w.
Proof. now destruct h. Qed.

Lemma reinit_ACTORS (s : State) : ACTORS (reinit s) = ACTORS (respawned s).
Proof.
  unfold reinit, respawned, advanced.
  destruct (read_clock (init_begin s)) as [now s1]. reflexivity.
Qed.

Lemma init_quiet (fuel : nat) (s : State) :
  quiet (ACTORS (respawned s)) = true -> init (S fuel) s = Some (reinit s).
Proof.
  unfold respawned, advanced, reinit, init, init_with. simpl.
  unfold main_with, update_with.
  destruct (read_clock (init_begin s)) as [now s1]. intro H.
  now rewrite (checkCollisions_quiet _ _ H).
Qed.

Local Opaque drawGrid.
Local Arguments render_calls : simpl never.
Local Arguments advance_calls : simpl never.
Local Arguments reset_calls : simpl never.

(** The state [init()] leaves, field by field. *)
Lemma reinit_shape (s : State) :
  exists (now : Z) (dt : Q) (es : list (Enemy EnemyData)) (e0 e1 : Env),
    List.length es = List.length (allEnemies (ACTORS s))
    /\ reinit s
       = {| ACTORS :=
              {| player := set_position 200 350 (player (ACTORS s));
                 allEnemies := es;
                 gem := gem (ACTORS s);
                 heart := fst (Heart_update (set_hx (-100) (heart (ACTORS s))) e0) |};
            lastTime := now;
            requestAnimationFrameID := Some (nextHandle (win s));
            win := {| pending :=
                        pending (cancelAnimationFrame (requestAnimationFrameID s) (win s))
                        ++ [nextHandle (win s)];
                      nextHandle := S (nextHandle (win s)) |};
            env := e1;
            calls := calls s
                     ++ reset_calls (List.length (allEnemies (ACTORS s)))
                                    (requestAnimationFrameID s)
                     ++ advance_calls dt (List.length (allEnemies (ACTORS s)))
                     ++ render_calls (List.length (allEnemies (ACTORS s)))
                     ++ [CRequestFrame (nextHandle (win s))] |}.
Proof.
  unfold reinit, init_begin, read_clock, reset, finish_frame, schedule, render,
    renderEntities, updateEntities, log, set_lastTime, set_env,
    requestAnimationFrame, reset_calls, advance_calls, render_calls.
  pose proof (forEach_own_length Enemy_newWave (allEnemies (ACTORS s)) (env s)) as L1.
  destruct (forEach_own Enemy_newWave (allEnemies (ACTORS s)) (env s)) as [es1 ea].
  simpl in *. destruct (Date_now ea) as [t0 eb]. simpl.
  destruct (Date_now eb) as [now ec]. simpl.
  pose proof (forEach_own_length (Enemy_update (deltaTime now t0)) es1 ec) as L2.
  destruct (forEach_own (Enemy_update (deltaTime now t0)) es1 ec) as [es2 ed].
  simpl in *.
  destruct (Heart_update (set_hx (-100) (heart (ACTORS s))) ed) as [h ee] eqn:Eh.
  simpl. exists now, (deltaTime now t0), es2, ed, ee.
  split; [congruence|].
  rewrite Eh, cancel_nextHandle, L2, L1. simpl.
  f_equal. repeat rewrite <- app_assoc. simpl. reflexivity.
Qed.

Lemma main_unfold (fuel : nat) (s : State) :
  main (S fuel) s
  = match checkCollisions fuel (advanced s) with
    | Some s2 => Some (finish_frame (fst (read_clock s)) s2)
    | None => None
    end.
Proof.
  unfold advanced, checkCollisions, init. simpl. unfold main_with, update_with.
  now destruct (read_clock s) as [now s1].
Qed.

(** ** The enemy rule *)

Lemma checkCollisions_enemy_hit (fuel : nat) (s : State) :
  enemy_hit (ACTORS s) = true ->
  quiet (ACTORS (respawned (dec_life s))) = true ->
  checkCollisions (S fuel) s = Some (reinit (dec_life s)).
Proof.
  intros Hhit Hq.
  pose proof (init_quiet fuel (dec_life s) Hq) as Hinit.
  rewrite <- reinit_ACTORS in Hq.
  pose proof Hq as Hq'. apply quiet_spec in Hq'. destruct Hq' as (He & Hg & Hh).
  unfold checkCollisions, checkCollisions_with.
  rewrite (enemy_loop_hit _ s Hhit Hinit He).
  rewrite (gem_check_idle _ _ Hg). now rewrite (heart_check_idle _ Hh).
Qed.


(** ** The gem rule *)

Lemma filter_gem_update_advance (dt : Q) (n : nat) :
  filter is_gem_update (advance_calls dt n) = [].
Proof.
  unfold advance_calls. rewrite filter_app. simpl. rewrite app_nil_r.
  induction (seq 0 n) as [|i l IH]; simpl; auto.
Qed.

Lemma filter_gem_update_reset (n : nat) (h : option nat) :
  filter is_gem_update (reset_calls n h) = [].
Proof.
  unfold reset_calls. rewrite filter_app. simpl. rewrite app_nil_r.
  induction (seq 0 n) as [|i l IH]; simpl; auto.
Qed.

Lemma filter_gem_update_render (n : nat) :
  filter is_gem_update (render_calls n) = [].
Proof.
  unfold render_calls. rewrite !filter_app. simpl.
  replace (filter is_gem_update drawGrid) with (@nil Call)
    by (vm_compute; reflexivity).
  simpl. induction (seq 0 n) as [|i l IH]; simpl; auto.
Qed.

Lemma checkCollisions_gem_hit (fuel : nat) (s : State) :
  enemy_hit (ACTORS s) = false ->
  gem_hit (ACTORS s) = true ->
  quiet (ACTORS (respawned (call_gem_update (inc_score s)))) = true ->
  checkCollisions (S fuel) s = Some (reinit (call_gem_update (inc_score s))).
Proof.
  intros He Hg Hq.
  pose proof (init_quiet fuel _ Hq) as Hinit.
  rewrite <- reinit_ACTORS in Hq. apply quiet_spec in Hq.
  destruct Hq as (_ & _ & Hh).
  unfold checkCollisions, checkCollisions_with.
  rewrite (forEach_index_idle _ _ (enemy_check_idle _ s He)).
  unfold gem_check. unfold gem_hit in Hg. rewrite Hg, Hinit.
  now rewrite (heart_check_idle _ Hh).
Qed.

(** C5, as the code has it.  The gem rule runs after the enemy rule, on the
    state the enemy rule leaves.  When the gem's box contains the player
    and no enemy's box does, and the world that [init] respawns is one in
    which no box contains the player, one pass of the resolver returns,
    adds exactly one to the score, calls [gem.update()] exactly once (the
    gem is what that call makes of it), and has run a full [init()]. *)
Theorem gem_collision_pass (fuel : nat) (s : State) :
  enemy_hit (ACTORS s) = false ->
  gem_hit (ACTORS s) = true ->
  quiet (ACTORS (respawned (call_gem_update (inc_score s)))) = true ->
  exists (s' : State) (dt : Q),
    checkCollisions (S fuel) s = Some s'
    /\ score (player (ACTORS s')) = (score (player (ACTORS s)) + 1)%Z
    /\ life (player (ACTORS s')) = life (player (ACTORS s))
    /\ gem (ACTORS s') = fst (Gem_update (gem (ACTORS s)) (env s))
    /\ List.length (filter is_gem_update (calls s'))
       = S (List.length (filter is_gem_update (calls s)))
    /\ px (player (ACTORS s')) = 200
    /\ py (player (ACTORS s')) = 350
    /\ calls s'
       = calls s
         ++ [CUpdate TheGem None]
         ++ map CNewWave (seq 0 (List.length (allEnemies (ACTORS s))))
         ++ [CCancelFrame (requestAnimationFrameID s)]
         ++ advance_calls dt (List.length (allEnemies (ACTORS s)))
         ++ render_calls (List.length (allEnemies (ACTORS s)))
         ++ [CRequestFrame (nextHandle (win s))]
    /\ requestAnimationFrameID s' = Some (nextHandle (win s))
    /\ pending (win s')
       = pending (cancelAnimationFrame (requestAnimationFrameID s) (win s))
         ++ [nextHandle (win s)].
Proof.
  intros He Hg Hq.
  destruct (reinit_shape (call_gem_update (inc_score s)))
    as (now & dt & es & e0 & e1 & Hlen & Hs).
  exists (reinit (call_gem_update (inc_score s))), dt.
  split; [now apply checkCollisions_gem_hit|].
  rewrite Hs. clear Hs. unfold call_gem_update, inc_score. simpl.
  destruct (Gem_update (gem (ACTORS s)) (env s)) as [g e] eqn:Eg. simpl.
  repeat split.
  - rewrite <- app_assoc, !filter_app, filter_gem_update_reset,
      filter_gem_update_advance, filter_gem_update_render. simpl.
    rewrite length_app. simpl. apply Nat.add_1_r.
  - unfold reset_calls. now rewrite <- !app_assoc.
Qed.

(** ** The heart rule *)

(** C6, as the code has it.  The heart rule runs last, on the state the
    enemy and gem rules leave.  When the heart's box contains the player
    and neither an enemy's nor the gem's does, one pass of the resolver
    returns (whatever the stack left), adds exactly one life, sets
    [notVisible], and calls [reset()] and nothing else: positions are
    reset, the callback of the handle held is cancelled, and no callback
    is requested. *)
Theorem heart_collision_pass (fuel : nat) (s : State) :
  enemy_hit (ACTORS s) = false ->
  gem_hit (ACTORS s) = false ->
  heart_hit (ACTORS s) = true ->
  exists s' : State,
    checkCollisions fuel s = Some s'
    /\ s' = reset (hide_heart (inc_life s))
    /\ life (player (ACTORS s')) = (life (player (ACTORS s)) + 1)%Z
    /\ notVisible (heart (ACTORS s')) = true
    /\ px (player (ACTORS s')) = 200
    /\ py (player (ACTORS s')) = 350
    /\ hx (heart (ACTORS s')) = -100
    /\ calls s'
       = calls s
         ++ map CNewWave (seq 0 (List.length (allEnemies (ACTORS s))))
         ++ [CCancelFrame (requestAnimationFrameID s)]
    /\ filter is_request
         (map CNewWave (seq 0 (List.length (allEnemies (ACTORS s))))
          ++ [CCancelFrame (requestAnimationFrameID s)]) = []
    /\ win s' = cancelAnimationFrame (requestAnimationFrameID s) (win s)
    /\ requestAnimationFrameID s' = requestAnimationFrameID s.
Proof.
  intros He Hg Hh. exists (reset (hide_heart (inc_life s))).
  split.
  - unfold checkCollisions, checkCollisions_with.
    rewrite (forEach_index_idle _ _ (enemy_check_idle _ s He)).
    rewrite (gem_check_idle _ _ Hg). unfold heart_check.
    unfold heart_hit in Hh. now rewrite Hh.
  - rewrite reset_calls_eq, reset_win, reset_handle, !reset_ACTORS. simpl.
    repeat split.
    rewrite filter_app. simpl. rewrite app_nil_r.
    induction (seq 0 _) as [|i l IH]; simpl; auto.
Qed.

(** ** Duplicate loops *)

Lemma advanced_win (s : State) : win (advanced s) = win s.
Proof.
  unfold advanced, read_clock, updateEntities.
  destruct (Date_now (env s)) as [now e]. simpl.
  destruct (forEach_own _ _ _) as [es e1]. now destruct (Heart_update _ _).
Qed.

Lemma advanced_handle (s : State) :
  requestAnimationFrameID (advanced s) = requestAnimationFrameID s.
Proof.
  unfold advanced, read_clock, updateEntities.
  destruct (Date_now (env s)) as [now e]. simpl.
  destruct (forEach_own _ _ _) as [es e1]. now destruct (Heart_update _ _).
Qed.

(** C4, where the code departs from it.  The loop is running: one
    callback is pending, under the handle held.  The browser runs it, and
    during that frame an enemy reaches the player.  [init()], called by
    the resolver, cancels the handle held (the callback that is running,
    no longer pending) and, through its own [main()], requests a callback;
    back in the outer [main], a second one is requested.  Two callbacks
    are pending when the frame ends. *)
Theorem collision_frame_leaves_two_callbacks (fuel h : nat) (s : State) :
  pending (win s) = [h] ->
  requestAnimationFrameID s = Some h ->
  enemy_hit (ACTORS (advanced (take_callback h s))) = true ->
  quiet (ACTORS (respawned (dec_life (advanced (take_callback h s))))) = true ->
  exists s' : State,
    fire (S (S fuel)) h s = Some s'
    /\ pending (win s') = [nextHandle (win s); S (nextHandle (win s))]
    /\ requestAnimationFrameID s' = Some (S (nextHandle (win s))).
Proof.
  intros Hp Hh Hhit Hq. unfold fire. rewrite Hp. cbn [existsb].
  rewrite Nat.eqb_refl. cbn [orb]. rewrite main_unfold.
  rewrite (checkCollisions_enemy_hit fuel _ Hhit Hq).
  eexists. split; [reflexivity|].
  destruct (reinit_shape (dec_life (advanced (take_callback h s))))
    as (now & dt & es & e0 & e1 & Hlen & Hs).
  rewrite Hs. clear Hs. unfold finish_frame, schedule. simpl.
  rewrite advanced_win, advanced_handle. simpl.
  rewrite Hh, Hp. simpl. rewrite Nat.eqb_refl. simpl. split; reflexivity.
Qed.

(** ** The record of calls only grows *)

Lemma extends_refl (s : State) : extends s s.
Proof. exists []. now rewrite app_nil_r. Qed.

Lemma extends_trans (s1 s2 s3 : State) :
  extends s1 s2 -> extends s2 s3 -> extends s1 s3.
Proof.
  intros [l1 H1] [l2 H2]. exists (l1 ++ l2). now rewrite H2, H1, app_assoc.
Qed.

Lemma extends_same_calls (s1 s2 s3 : State) :
  calls s2 = calls s1 -> extends s2 s3 -> extends s1 s3.
Proof. intros E [l H]. exists l. now rewrite H, E. Qed.

Lemma reset_extends (s : State) : extends s (reset s).
Proof. eexists. apply reset_calls_eq. Qed.

Lemma updateEntities_calls (dt : Q) (s : State) :
  calls (updateEntities dt s)
  = calls s ++ advance_calls dt (List.length (allEnemies (ACTORS s))).
Proof.
  unfold updateEntities, advance_calls.
  destruct (forEach_own _ _ _) as [es e1]. now destruct (Heart_update _ _).
Qed.

Lemma read_clock_calls (s : State) : calls (snd (read_clock s)) = calls s.
Proof. unfold read_clock. now destruct (Date_now (env s)). Qed.

Lemma read_clock_lastTime (s : State) :
  lastTime (snd (read_clock s)) = lastTime s.
Proof. unfold read_clock. now destruct (Date_now (env s)). Qed.

Lemma finish_frame_extends (now : Z) (s : State) : extends s (finish_frame now s).
Proof.
  unfold finish_frame, schedule, render, renderEntities, log. simpl.
  eexists. rewrite <- !app_assoc. reflexivity.
Qed.

Lemma init_begin_extends (s : State) : extends s (init_begin s).
Proof.
  unfold init_begin.
  pose proof (read_clock_calls (reset s)) as E.
  destruct (read_clock (reset s)) as [t0 s1]. simpl in E.
  destruct (reset_extends s) as [l H]. exists l. simpl. congruence.
Qed.

Lemma forEach_index_extends body (indices : list nat) :
  (forall i s s', body i s = Some s' -> extends s s') ->
  forall s s', forEach_index body indices s = Some s' -> extends s s'.
Proof.
  intro Hbody. induction indices as [|i rest IH]; simpl; intros s s' H.
  - injection H as <-. apply extends_refl.
  - destruct (body i s) as [s1|] eqn:E; [|discriminate].
    eapply extends_trans; [apply (Hbody _ _ _ E) | apply (IH _ _ H)].
Qed.

Lemma checkCollisions_with_extends init :
  (forall s s', init s = Some s' -> extends s s') ->
  forall s s', checkCollisions_with init s = Some s' -> extends s s'.
Proof.
  intros Hinit s s' H. unfold checkCollisions_with in H.
  destruct (forEach_index _ _ s) as [s1|] eqn:E1; [|discriminate].
  destruct (gem_check init s1) as [s2|] eqn:E2; [|discriminate].
  injection H as <-.
  apply extends_trans with s1.
  { revert E1. apply forEach_index_extends. intros i t t' Ht.
    unfold enemy_check in Ht.
    destruct (nth_error _ i) as [e|]; [|injection Ht as <-; apply extends_refl].
    destruct (overlaps _ _ _); [|injection Ht as <-; apply extends_refl].
    apply Hinit in Ht. eapply extends_same_calls; [|exact Ht]. reflexivity. }
  apply extends_trans with s2.
  { unfold gem_check in E2.
    destruct (overlaps _ _ _); [|injection E2 as <-; apply extends_refl].
    apply Hinit in E2. eapply extends_trans; [|exact E2].
    unfold call_gem_update, inc_score. simpl.
    destruct (Gem_update _ _). simpl. now eexists. }
  unfold heart_check. destruct (overlaps _ _ _); [|apply extends_refl].
  eapply extends_same_calls; [|apply reset_extends]. reflexivity.
Qed.

Lemma main_extends (fuel : nat) :
  forall s s', main fuel s = Some s' -> extends s s'.
Proof.
  induction fuel as [|fuel IH]; intros s s' H; [discriminate|].
  simpl in H. unfold main_with, update_with in H.
  pose proof (read_clock_calls s) as Ec.
  destruct (read_clock s) as [now s1]. simpl in Ec.
  destruct (checkCollisions_with _ _) as [s2|] eqn:E; [|discriminate].
  injection H as <-.
  apply checkCollisions_with_extends in E.
  - eapply extends_same_calls; [exact Ec|].
    eapply extends_trans; [|apply finish_frame_extends].
    eapply extends_trans; [|exact E].
    eexists. apply updateEntities_calls.
  - intros t t' Ht. unfold init_with in Ht.
    eapply extends_trans; [apply init_begin_extends | apply (IH _ _ Ht)].
Qed.

Lemma checkCollisions_extends (fuel : nat) (s s' : State) :
  checkCollisions fuel s = Some s' -> extends s s'.
Proof.
  apply checkCollisions_with_extends. intros t t' Ht. unfold init, init_with in Ht.
  eapply extends_trans; [apply init_begin_extends | apply (main_extends _ _ Ht)].
Qed.

(** ** The time delta *)

Set Warnings "-inexact-float".

(** C8.  A frame reads the clock once, hands
    [(now - lastTime) / 1000] to [update], which hands it unchanged to
    every [enemy.update]; when [update] has returned, [now] is stored as
    [lastTime] for the next frame.  The delta is exact and unbounded
    (a thousand times it is [now - lastTime], whatever the two are); for
    1000 ms and 1016 ms it is 0.016, as a rational and as the binary64
    value JavaScript computes. *)
Theorem frame_deltaTime :
  (forall fuel s,
      main (S fuel) s
      = match update fuel (deltaTime (fst (read_clock s)) (lastTime s))
                     (snd (read_clock s)) with
        | Some s2 => Some (finish_frame (fst (read_clock s)) s2)
        | None => None
        end)
  /\ (forall dt s,
      calls (updateEntities dt s)
      = calls s
        ++ map (fun i => CUpdate (TheEnemy i) (Some dt))
               (seq 0 (List.length (allEnemies (ACTORS s))))
        ++ [CUpdate TheHeart None])
  /\ (forall now s, lastTime (finish_frame now s) = now)
  /\ (forall now last, deltaTime now last * 1000 == inject_Z now - inject_Z last)
  /\ deltaTime 1016 1000 == 0.016
  /\ deltaTime_binary64 1016 1000 = 0.016%float.
Proof.
  repeat split.
  - intros fuel s. simpl. unfold main_with, update.
    pose proof (read_clock_lastTime s) as E.
    destruct (read_clock s) as [now s1]. simpl in *. now rewrite E.
  - intros dt s. apply updateEntities_calls.
  - intros now last. unfold deltaTime, Qdiv. rewrite <- Qmult_assoc.
    rewrite (Qmult_comm (/ 1000)), Qmult_inv_r by discriminate.
    rewrite Qmult_1_r. unfold Zminus. rewrite inject_Z_plus, inject_Z_opp.
    reflexivity.
Qed.

Set Warnings "+inexact-float".

(** ** [update] *)

Lemma updateEntities_ACTORS (dt : Q) (s : State) :
  ACTORS (updateEntities dt s)
  = {| player := player (ACTORS s);
       allEnemies := fst (forEach_own (Enemy_update dt) (allEnemies (ACTORS s)) (env s));
       gem := gem (ACTORS s);
       heart := fst (Heart_update (heart (ACTORS s))
                       (snd (forEach_own (Enemy_update dt)
                               (allEnemies (ACTORS s)) (env s)))) |}.
Proof.
  unfold updateEntities.
  destruct (forEach_own _ _ _) as [es e1]. now destruct (Heart_update _ _).
Qed.

(** C9, as the code has it.  [update(dt)] first advances the enemies, each
    [enemy.update] receiving [dt], in order, then calls [heart.update()]
    with no argument; the player and the gem are not advanced.  Only then
    does it run the resolver, once, on the state so reached, and whatever
    the resolver does is recorded after those calls. *)
Theorem update_advances_then_resolves (fuel : nat) (dt : Q) (s : State) :
  update fuel dt s = checkCollisions fuel (updateEntities dt s)
  /\ calls (updateEntities dt s)
     = calls s
       ++ map (fun i => CUpdate (TheEnemy i) (Some dt))
              (seq 0 (List.length (allEnemies (ACTORS s))))
       ++ [CUpdate TheHeart None]
  /\ allEnemies (ACTORS (updateEntities dt s))
     = fst (forEach_own (Enemy_update dt) (allEnemies (ACTORS s)) (env s))
  /\ heart (ACTORS (updateEntities dt s))
     = fst (Heart_update (heart (ACTORS s))
              (snd (forEach_own (Enemy_update dt) (allEnemies (ACTORS s)) (env s))))
  /\ player (ACTORS (updateEntities dt s)) = player (ACTORS s)
  /\ gem (ACTORS (updateEntities dt s)) = gem (ACTORS s)
  /\ (forall s', update fuel dt s = Some s' -> extends (updateEntities dt s) s').
Proof.
  rewrite updateEntities_ACTORS. simpl. repeat split.
  - apply updateEntities_calls.
  - intros s' H. now apply checkCollisions_extends in H.
Qed.

(** ** The hidden heart *)


End Properties.

(** * The sample worlds *)



(** The gem rule on [Sample.gem_world]: one point more, the gem moved. *)
Lemma gem_collision_pass_sample :
  enemy_hit (ACTORS Sample.gem_world) = false
  /\ gem_hit (ACTORS Sample.gem_world) = true
  /\ exists s' : State,
       checkCollisions 1 Sample.gem_world = Some s'
       /\ score (player (ACTORS Sample.gem_world)) = 0%Z
       /\ score (player (ACTORS s')) = 1%Z
       /\ List.length (filter is_gem_update (calls s')) = 1%nat
       /\ px (player (ACTORS s')) = 200
       /\ py (player (ACTORS s')) = 350
       /\ pending (win s') = [1%nat].
Proof.
  assert (H1 : enemy_hit (ACTORS Sample.gem_world) = false)
    by (vm_compute; reflexivity).
  assert (H2 : gem_hit (ACTORS Sample.gem_world) = true)
    by (vm_compute; reflexivity).
  assert (H3 : quiet (ACTORS (respawned (call_gem_update (inc_score Sample.gem_world))))
               = true) by (vm_compute; reflexivity).
  split; [exact H1 | split; [exact H2|]].
  destruct (@gem_collision_pass Sample.sample 0%nat Sample.gem_world H1 H2 H3)
    as (s' & dt & Hrun & Hscore & _ & _ & Hn & Hx & Hy & _ & _ & Hp).
  exists s'. repeat split; try assumption.
Defined.

(** The heart rule on [Sample.heart_world]: one life more, the heart
    hidden, nothing scheduled. *)
Lemma heart_collision_pass_sample :
  enemy_hit (ACTORS Sample.heart_world) = false
  /\ gem_hit (ACTORS Sample.heart_world) = false
  /\ heart_hit (ACTORS Sample.heart_world) = true
  /\ exists s' : State,
       checkCollisions 0 Sample.heart_world = Some s'
       /\ life (player (ACTORS Sample.heart_world)) = 3%Z
       /\ life (player (ACTORS s')) = 4%Z
       /\ notVisible (heart (ACTORS s')) = true
       /\ hx (heart (ACTORS s')) = -100
       /\ pending (win s') = [].
Proof.
  assert (H1 : enemy_hit (ACTORS Sample.heart_world) = false)
    by (vm_compute; reflexivity).
  assert (H2 : gem_hit (ACTORS Sample.heart_world) = false)
    by (vm_compute; reflexivity).
  assert (H3 : heart_hit (ACTORS Sample.heart_world) = true)
    by (vm_compute; reflexivity).
  split; [exact H1 | split; [exact H2 | split; [exact H3|]]].
  destruct (@heart_collision_pass Sample.sample 0%nat Sample.heart_world H1 H2 H3)
    as (s' & Hrun & _ & Hlife & Hnv & _ & _ & Hh & _ & _ & Hw & _).
  exists s'. repeat split; try assumption. now rewrite Hw.
Defined.

(** The running loop of [Sample.running_world], one frame later: two
    callbacks are pending. *)
Lemma collision_frame_leaves_two_callbacks_sample :
  pending (win Sample.running_world) = [0%nat]
  /\ requestAnimationFrameID Sample.running_world = Some 0%nat
  /\ exists s' : State,
       fire 2 0 Sample.running_world = Some s'
       /\ pending (win s') = [1%nat; 2%nat]
       /\ requestAnimationFrameID s' = Some 2%nat.
Proof.
  split; [reflexivity | split; [reflexivity|]].
  apply (@collision_frame_leaves_two_callbacks Sample.sample 0%nat 0%nat
           Sample.running_world eq_refl eq_refl);
    vm_compute; reflexivity.
Defined.

(** The same from the start of the game: [init], then the player steps to
    (100, 70) and a frame runs a second and a half later, when the first
    enemy has come to [x = 50]. *)
Example duplicate_loop_from_start :
  match init 1 Sample.start_world with
  | Some s1 =>
      pending (win s1) = [0%nat]
      /\ requestAnimationFrameID s1 = Some 0%nat
      /\ match fire 2 0 (Sample.input 100 70 2500 s1) with
         | Some s2 =>
             pending (win s2) = [1%nat; 2%nat]
             /\ life (player (ACTORS s2)) = 2%Z
         | None => False
         end
  | None => False
  end.
Proof. vm_compute. repeat split. Qed.

(** Both callbacks run [main] in the next frame and each requests its
    successor: from then on the loop runs twice per frame. *)
Example duplicate_loops_persist :
  match fire 2 0 Sample.running_world with
  | Some s1 =>
      match fire 2 1 s1 with
      | Some s2 =>
          match fire 2 2 s2 with
          | Some s3 => pending (win s3) = [3%nat; 4%nat]
          | None => False
          end
      | None => False
      end
  | None => False
  end.
Proof. vm_compute. reflexivity. Qed.


(** C3, the claim as stated fails: the loop is running with its one
    callback pending; after two calls of [reset] none is pending. *)
Lemma reset_twice_leaves_none_pending :
  List.length (pending (win Sample.running_world)) = 1%nat
  /\ List.length (pending (win (reset (reset Sample.running_world)))) = 0%nat.
Proof. split; vm_compute; reflexivity. Qed.

(** C5, the claim as stated fails: the gem's box and an enemy's box both
    contain the player; the enemy rule moves the player to the spawn point
    first, and the gem rule then finds nothing: the score is unchanged and
    [gem.update()] is not called. *)
Lemma gem_rule_skipped_after_enemy_rule :
  gem_hit (ACTORS Sample.enemy_gem_world) = true
  /\ score (player (ACTORS Sample.enemy_gem_world)) = 0%Z
  /\ match checkCollisions 1 Sample.enemy_gem_world with
     | Some s' =>
         score (player (ACTORS s')) = 0%Z
         /\ filter is_gem_update (calls s') = []
         /\ gem (ACTORS s') = gem (ACTORS Sample.enemy_gem_world)
     | None => False
     end.
Proof. vm_compute. repeat split. Qed.

(** C6, the claim as stated fails: the heart's box and an enemy's box both
    contain the player; the enemy rule takes a life and moves the player
    and the heart first, and the heart rule then finds nothing: no life is
    added and the heart is not marked. *)
Lemma heart_rule_skipped_after_enemy_rule :
  heart_hit (ACTORS Sample.enemy_heart_world) = true
  /\ life (player (ACTORS Sample.enemy_heart_world)) = 3%Z
  /\ match checkCollisions 1 Sample.enemy_heart_world with
     | Some s' =>
         life (player (ACTORS s')) = 2%Z
         /\ notVisible (heart (ACTORS s')) = false
     | None => False
     end.
Proof. vm_compute. repeat split. Qed.

(** C9, the claim as stated fails: of the four kinds of actor only the
    enemies receive the delta; [heart.update()] is called without it, and
    neither the player nor the gem is advanced. *)
Lemma advance_calls_of_a_frame :
  let dt := deltaTime 1016 1000 in
  let cs := calls (updateEntities dt Sample.gem_world) in
  cs = [ CUpdate (TheEnemy 0) (Some dt); CUpdate (TheEnemy 1) (Some dt);
         CUpdate (TheEnemy 2) (Some dt); CUpdate TheHeart None ]
  /\ ~ In (CUpdate TheHeart (Some dt)) cs
  /\ ~ In (CUpdate TheGem (Some dt)) cs
  /\ ~ In (CUpdate ThePlayer (Some dt)) cs.
Proof.
  cbv zeta.
  assert (E : calls (updateEntities (deltaTime 1016 1000) Sample.gem_world)
              = [ CUpdate (TheEnemy 0) (Some (deltaTime 1016 1000));
                  CUpdate (TheEnemy 1) (Some (deltaTime 1016 1000));
                  CUpdate (TheEnemy 2) (Some (deltaTime 1016 1000));
                  CUpdate TheHeart None ]) by (vm_compute; reflexivity).
  rewrite E. repeat split; intro H; simpl in H;
    repeat (destruct H as [H|H]; try discriminate H); exact H.
Qed.

(** * Further properties of the engine *)

(** ** What every frame keeps

    A relation between the state before and after that is reflexive,
    transitive and kept by each step of the engine is kept by [main],
    [init] and [checkCollisions], whatever the depth of their recursion. *)
Section Preservation.

Context {app : App}.
Variable R : State -> State -> Prop.
Hypothesis R_refl : forall s, R s s.
Hypothesis R_trans : forall s1 s2 s3, R s1 s2 -> R s2 s3 -> R s1 s3.
Hypothesis R_reset : forall s, R s (reset s).
Hypothesis R_advance : forall dt s, R s (updateEntities dt s).
Hypothesis R_clock : forall s, R s (snd (read_clock s)).
Hypothesis R_lastTime : forall t s, R s (set_lastTime t s).
Hypothesis R_finish : forall now s, R s (finish_frame now s).
Hypothesis R_dec_life : forall s, R s (dec_life s).
Hypothesis R_inc_life : forall s, R s (inc_life s).
Hypothesis R_inc_score : forall s, R s (inc_score s).
Hypothesis R_gem_update : forall s, R s (call_gem_update s).
Hypothesis R_hide_heart : forall s, R s (hide_heart s).

Lemma init_begin_kept (s : State) : R s (init_begin s).
Proof.
  unfold init_begin. pose proof (R_clock (reset s)) as H.
  destruct (read_clock (reset s)) as [t s1]. simpl in H.
  eapply R_trans; [apply R_reset|]. eapply R_trans; [exact H|]. apply R_lastTime.
Qed.

Lemma forEach_index_kept body (indices : list nat) :
  (forall i s s', body i s = Some s' -> R s s') ->
  forall s s', forEach_index body indices s = Some s' -> R s s'.
Proof.
  intro Hbody. induction indices as [|i rest IH]; simpl; intros s s' H.
  - injection H as <-. apply R_refl.
  - destruct (body i s) as [s1|] eqn:E; [|discriminate].
    eapply R_trans; [apply (Hbody _ _ _ E) | apply (IH _ _ H)].
Qed.

Lemma checkCollisions_with_kept init :
  (forall s s', init s = Some s' -> R s s') ->
  forall s s', checkCollisions_with init s = Some s' -> R s s'.
Proof.
  intros Hinit s s' H. unfold checkCollisions_with in H.
  destruct (forEach_index _ _ s) as [s1|] eqn:E1; [|discriminate].
  destruct (gem_check init s1) as [s2|] eqn:E2; [|discriminate].
  injection H as <-.
  apply R_trans with s1.
  { revert E1. apply forEach_index_kept. intros i t t' Ht.
    unfold enemy_check in Ht.
    destruct (nth_error _ i) as [e|]; [|injection Ht as <-; apply R_refl].
    destruct (overlaps _ _ _); [|injection Ht as <-; apply R_refl].
    eapply R_trans; [apply R_dec_life | apply (Hinit _ _ Ht)]. }
  apply R_trans with s2.
  { unfold gem_check in E2.
    destruct (overlaps _ _ _); [|injection E2 as <-; apply R_refl].
    eapply R_trans; [apply R_inc_score|].
    eapply R_trans; [apply R_gem_update | apply (Hinit _ _ E2)]. }
  unfold heart_check. destruct (overlaps _ _ _); [|apply R_refl].
  eapply R_trans; [apply R_inc_life|].
  eapply R_trans; [apply R_hide_heart | apply R_reset].
Qed.

Lemma main_kept (fuel : nat) :
  forall s s', main fuel s = Some s' -> R s s'.
Proof.
  induction fuel as [|fuel IH]; intros s s' H; [discriminate|].
  simpl in H. unfold main_with, update_with in H.
  pose proof (R_clock s) as Hc.
  destruct (read_clock s) as [now s1]. simpl in Hc.
  destruct (checkCollisions_with _ _) as [s2|] eqn:E; [|discriminate].
  injection H as <-.
  apply checkCollisions_with_kept in E.
  - eapply R_trans; [exact Hc|]. eapply R_trans; [apply R_advance|].
    eapply R_trans; [exact E | apply R_finish].
  - intros t t' Ht. unfold init_with in Ht.
    eapply R_trans; [apply init_begin_kept | apply (IH _ _ Ht)].
Qed.

Lemma init_kept (fuel : nat) (s s' : State) :
  init fuel s = Some s' -> R s s'.
Proof.
  unfold init, init_with. intro H.
  eapply R_trans; [apply init_begin_kept | apply (main_kept _ _ H)].
Qed.

Lemma checkCollisions_kept (fuel : nat) (s s' : State) :
  checkCollisions fuel s = Some s' -> R s s'.
Proof.
  apply checkCollisions_with_kept. intros t t'. apply init_kept.
Qed.

Lemma engine_kept (fuel : nat) (s s' : State) :
  main fuel s = Some s' \/ init fuel s = Some s'
  \/ checkCollisions fuel s = Some s' ->
  R s s'.
Proof.
  intros [H|[H|H]];
    [apply (main_kept _ _ H) | apply (init_kept _ _ H)
     | apply (checkCollisions_kept _ _ H)].
Qed.

End Preservation.

Section Invariants.

Context {app : App}.

Ltac open_step :=
  intros;
  unfold read_clock, finish_frame, schedule, render, renderEntities, log,
    set_lastTime, set_env, call_gem_update, dec_life, inc_life, inc_score,
    hide_heart, set_ACTORS, requestAnimationFrame;
  try rewrite reset_ACTORS; try rewrite updateEntities_ACTORS;
  try rewrite reset_win;
  repeat match goal with
         | |- context [let (_, _) := ?x in _] => destruct x
         end;
  simpl.

Lemma updateEntities_win (dt : Q) (s : State) :
  win (updateEntities dt s) = win s.
Proof.
  unfold updateEntities.
  destruct (forEach_own _ _ _) as [es e1]. now destruct (Heart_update _ _).
Qed.

Lemma updateEntities_handle (dt : Q) (s : State) :
  requestAnimationFrameID (updateEntities dt s) = requestAnimationFrameID s.
Proof.
  unfold updateEntities.
  destruct (forEach_own _ _ _) as [es e1]. now destruct (Heart_update _ _).
Qed.

(** X1.  The score never goes down and the number of enemies never
    changes, in a frame, in [init()] or in a pass of the resolver, however
    many collisions and nested [init()] calls it runs through. *)
Theorem score_and_enemies_kept (fuel : nat) (s s' : State) :
  main fuel s = Some s' \/ init fuel s = Some s'
  \/ checkCollisions fuel s = Some s' ->
  (score (player (ACTORS s)) <= score (player (ACTORS s')))%Z
  /\ List.length (allEnemies (ACTORS s')) = List.length (allEnemies (ACTORS s)).
Proof.
  apply (@engine_kept app
           (fun s s' =>
              (score (player (ACTORS s)) <= score (player (ACTORS s')))%Z
              /\ List.length (allEnemies (ACTORS s'))
                 = List.length (allEnemies (ACTORS s)))).
  - intros; split; [apply Z.le_refl | reflexivity].
  - intros s1 s2 s3 [H1 H2] [H3 H4]. split; [lia | congruence].
  - open_step. split; [apply Z.le_refl | apply forEach_own_length].
  - open_step. split; [apply Z.le_refl | apply forEach_own_length].
  - open_step. split; [apply Z.le_refl | reflexivity].
  - open_step. split; [apply Z.le_refl | reflexivity].
  - open_step. split; [apply Z.le_refl | reflexivity].
  - open_step. split; [apply Z.le_refl | reflexivity].
  - open_step. split; [apply Z.le_refl | reflexivity].
  - open_step. split; [lia | reflexivity].
  - open_step. split; [apply Z.le_refl | reflexivity].
  - open_step. split; [apply Z.le_refl | reflexivity].
Qed.

(** X2.  The engine moves the player nowhere but to the spawn point: after
    a frame, an [init()] or a pass of the resolver the player is where it
    was or at (200, 350). *)
Theorem player_moves_only_to_spawn (fuel : nat) (s s' : State) :
  main fuel s = Some s' \/ init fuel s = Some s'
  \/ checkCollisions fuel s = Some s' ->
  (px (player (ACTORS s')) = px (player (ACTORS s))
   /\ py (player (ACTORS s')) = py (player (ACTORS s)))
  \/ (px (player (ACTORS s')) = 200 /\ py (player (ACTORS s')) = 350).
Proof.
  apply (@engine_kept app
           (fun s s' =>
              (px (player (ACTORS s')) = px (player (ACTORS s))
               /\ py (player (ACTORS s')) = py (player (ACTORS s)))
              \/ (px (player (ACTORS s')) = 200
                  /\ py (player (ACTORS s')) = 350))).
  - intros; left; split; reflexivity.
  - intros s1 s2 s3 [[H1 H2]|[H1 H2]] [[H3 H4]|[H3 H4]];
      [left; split; congruence | right; split; assumption
       | right; split; congruence | right; split; assumption].
  - open_step. right; split; reflexivity.
  - open_step. left; split; reflexivity.
  - open_step. left; split; reflexivity.
  - open_step. left; split; reflexivity.
  - open_step. left; split; reflexivity.
  - open_step. left; split; reflexivity.
  - open_step. left; split; reflexivity.
  - open_step. left; split; reflexivity.
  - open_step. left; split; reflexivity.
  - open_step. left; split; reflexivity.
Qed.

Lemma cancel_fresh (h : option nat) (w : Window) :
  handles_fresh w -> handles_fresh (cancelAnimationFrame h w).
Proof.
  intros [Hn Hb]. destruct h as [n|]; [|now split]. split; simpl.
  - now apply NoDup_filter.
  - intros k Hk. apply filter_In in Hk. now apply Hb.
Qed.

Lemma request_fresh (w : Window) :
  handles_fresh w -> handles_fresh (snd (requestAnimationFrame w)).
Proof.
  intros [Hn Hb]. split; simpl.
  - apply NoDup_app; [exact Hn | repeat constructor; intros [] |].
    intros k Hk [<-|[]]. apply Hb in Hk. lia.
  - intros k Hk. apply in_app_or in Hk. destruct Hk as [Hk|[<-|[]]].
    + apply Hb in Hk. lia.
    + lia.
Qed.

(** X3.  Handles are never reused and no callback is ever pending twice:
    if the pending handles are distinct and below the next handle before a
    frame, an [init()] or a pass of the resolver, they are so after it, and
    the next handle has not gone down. *)
Theorem handles_stay_fresh (fuel : nat) (s s' : State) :
  main fuel s = Some s' \/ init fuel s = Some s'
  \/ checkCollisions fuel s = Some s' ->
  (nextHandle (win s) <= nextHandle (win s'))%nat
  /\ (handles_fresh (win s) -> handles_fresh (win s')).
Proof.
  apply (@engine_kept app
           (fun s s' =>
              (nextHandle (win s) <= nextHandle (win s'))%nat
              /\ (handles_fresh (win s) -> handles_fresh (win s')))).
  - intros; split; [apply Nat.le_refl | auto].
  - intros s1 s2 s3 [H1 H2] [H3 H4]. split; [lia | auto].
  - intro s0. rewrite reset_win, cancel_nextHandle.
    split; [apply Nat.le_refl | apply cancel_fresh].
  - intros dt s0. rewrite updateEntities_win. split; [apply Nat.le_refl | auto].
  - open_step. split; [apply Nat.le_refl | auto].
  - open_step. split; [apply Nat.le_refl | auto].
  - intros now s0. unfold finish_frame, schedule. simpl.
    split; [lia | apply request_fresh].
  - open_step. split; [apply Nat.le_refl | auto].
  - open_step. split; [apply Nat.le_refl | auto].
  - open_step. split; [apply Nat.le_refl | auto].
  - open_step. split; [apply Nat.le_refl | auto].
  - open_step. split; [apply Nat.le_refl | auto].
Qed.

(** X4.  A frame never leaves the loop stopped: when [main] returns, the
    handle held is the last one issued and its callback is pending, also
    when the frame has run [reset()] for a heart. *)
Theorem frame_ends_scheduled (fuel : nat) (s s' : State) :
  main fuel s = Some s' \/ init fuel s = Some s' ->
  exists h : nat,
    requestAnimationFrameID s' = Some h
    /\ In h (pending (win s'))
    /\ nextHandle (win s') = S h.
Proof.
  assert (Hmain : forall f t t', main f t = Some t' ->
            exists h, requestAnimationFrameID t' = Some h
                      /\ In h (pending (win t')) /\ nextHandle (win t') = S h).
  { intros [|f] t t' H; [discriminate|]. rewrite main_unfold in H.
    destruct (checkCollisions f (advanced t)) as [s2|]; [|discriminate].
    injection H as <-. unfold finish_frame, schedule. simpl.
    eexists. split; [reflexivity|]. split; [|reflexivity].
    apply in_or_app. right. now left. }
  intros [H|H]; [apply (Hmain _ _ _ H) | apply (Hmain _ _ _ H)].
Qed.

End Invariants.

(** ** Frames of a running loop *)

Section Frames.

Context {app : App}.

Lemma advanced_player (s : State) :
  player (ACTORS (advanced s)) = player (ACTORS s).
Proof.
  unfold advanced, read_clock. destruct (Date_now (env s)) as [now e].
  now rewrite updateEntities_ACTORS.
Qed.

Lemma advanced_gem (s : State) : gem (ACTORS (advanced s)) = gem (ACTORS s).
Proof.
  unfold advanced, read_clock. destruct (Date_now (env s)) as [now e].
  now rewrite updateEntities_ACTORS.
Qed.

Lemma fire_pending_one (fuel h : nat) (s : State) :
  pending (win s) = [h] ->
  fire fuel h s = main fuel (take_callback h s)
  /\ pending (win (take_callback h s)) = [].
Proof.
  intro Hp. unfold fire, take_callback. rewrite Hp. cbn [existsb filter win pending].
  now rewrite Nat.eqb_refl.
Qed.

Lemma cancel_nothing_pending (h : option nat) (w : Window) :
  pending w = [] -> pending (cancelAnimationFrame h w) = [].
Proof. intro H. destruct h; simpl; now rewrite H. Qed.

Lemma checkCollisions_heart_hit (fuel : nat) (s : State) :
  enemy_hit (ACTORS s) = false ->
  gem_hit (ACTORS s) = false ->
  heart_hit (ACTORS s) = true ->
  checkCollisions fuel s = Some (reset (hide_heart (inc_life s))).
Proof.
  intros He Hg Hh. unfold checkCollisions, checkCollisions_with.
  rewrite (forEach_index_idle _ _ (enemy_check_idle _ s He)).
  rewrite (gem_check_idle _ _ Hg). unfold heart_check.
  unfold heart_hit in Hh. now rewrite Hh.
Qed.

(** X5.  A frame in which no box contains the player keeps the loop
    single: the one pending callback runs, the actors are as their updates
    left them (the player and the gem untouched), [lastTime] is the time
    read at the start of the frame, and exactly one callback, under a new
    handle, is pending at the end. *)
Theorem quiet_frame_keeps_one_loop (fuel h : nat) (s : State) :
  pending (win s) = [h] ->
  quiet (ACTORS (advanced (take_callback h s))) = true ->
  exists s' : State,
    fire (S fuel) h s = Some s'
    /\ ACTORS s' = ACTORS (advanced (take_callback h s))
    /\ player (ACTORS s') = player (ACTORS s)
    /\ gem (ACTORS s') = gem (ACTORS s)
    /\ lastTime s' = fst (Date_now (env s))
    /\ pending (win s') = [nextHandle (win s)]
    /\ requestAnimationFrameID s' = Some (nextHandle (win s)).
Proof.
  intros Hp Hq. destruct (@fire_pending_one (S fuel) h s Hp) as [-> Hnil].
  rewrite main_unfold. unfold checkCollisions.
  rewrite (checkCollisions_quiet _ _ Hq).
  eexists. split; [reflexivity|].
  unfold finish_frame, schedule. cbn [ACTORS lastTime render renderEntities log
    set_lastTime requestAnimationFrame requestAnimationFrameID win pending fst snd].
  rewrite advanced_win, Hnil, advanced_player, advanced_gem.
  unfold read_clock. cbn [env take_callback].
  destruct (Date_now (env s)) as [now e]. repeat split.
Qed.

(** X6.  A frame in which only the heart's box contains the player does
    not stop the loop and does not double it: [reset()] cancels nothing
    that is pending (the callback that runs has left the list) and [main]
    then requests the next frame.  One life is added, the heart is marked,
    the player is at the spawn point, and exactly one callback is pending. *)
Theorem heart_frame_keeps_one_loop (fuel h : nat) (s : State) :
  pending (win s) = [h] ->
  enemy_hit (ACTORS (advanced (take_callback h s))) = false ->
  gem_hit (ACTORS (advanced (take_callback h s))) = false ->
  heart_hit (ACTORS (advanced (take_callback h s))) = true ->
  exists s' : State,
    fire (S fuel) h s = Some s'
    /\ life (player (ACTORS s')) = (life (player (ACTORS s)) + 1)%Z
    /\ notVisible (heart (ACTORS s')) = true
    /\ px (player (ACTORS s')) = 200
    /\ py (player (ACTORS s')) = 350
    /\ hx (heart (ACTORS s')) = -100
    /\ pending (win s') = [nextHandle (win s)]
    /\ requestAnimationFrameID s' = Some (nextHandle (win s)).
Proof.
  intros Hp He Hg Hh. destruct (@fire_pending_one (S fuel) h s Hp) as [-> Hnil].
  rewrite main_unfold, (checkCollisions_heart_hit fuel _ He Hg Hh).
  eexists. split; [reflexivity|].
  unfold finish_frame, schedule. cbn [ACTORS lastTime render renderEntities log
    set_lastTime requestAnimationFrame requestAnimationFrameID win pending
    nextHandle fst snd].
  rewrite reset_win, reset_ACTORS, cancel_nextHandle.
  rewrite cancel_nothing_pending
    by (cbn [win hide_heart inc_life set_ACTORS]; now rewrite advanced_win).
  cbn [win hide_heart inc_life set_ACTORS set_player set_heart set_life
       set_notVisible set_position set_hx player heart life notVisible px py hx
       ACTORS].
  rewrite advanced_win, advanced_player. repeat split.
Qed.

(** X7.  A frame in which the gem's box contains the player (and no
    enemy's) leaves two callbacks pending, as a frame with an enemy
    collision does: the [init()] of the gem rule requests one through its
    own [main()], and the outer [main] requests another.  The score has
    gone up by one. *)
Theorem gem_frame_leaves_two_callbacks (fuel h : nat) (s : State) :
  pending (win s) = [h] ->
  enemy_hit (ACTORS (advanced (take_callback h s))) = false ->
  gem_hit (ACTORS (advanced (take_callback h s))) = true ->
  quiet (ACTORS (respawned (call_gem_update
                              (inc_score (advanced (take_callback h s))))))
  = true ->
  exists s' : State,
    fire (S (S fuel)) h s = Some s'
    /\ score (player (ACTORS s')) = (score (player (ACTORS s)) + 1)%Z
    /\ pending (win s') = [nextHandle (win s); S (nextHandle (win s))]
    /\ requestAnimationFrameID s' = Some (S (nextHandle (win s))).
Proof.
  intros Hp He Hg Hq.
  destruct (@fire_pending_one (S (S fuel)) h s Hp) as [-> Hnil].
  rewrite main_unfold, (checkCollisions_gem_hit fuel _ He Hg Hq).
  eexists. split; [reflexivity|].
  destruct (reinit_shape (call_gem_update
                            (inc_score (advanced (take_callback h s)))))
    as (now & dt & es & e0 & e1 & Hlen & Hs).
  rewrite Hs. clear Hs. unfold finish_frame, schedule, call_gem_update, inc_score.
  destruct (Gem_update _ _) as [g e]. simpl.
  rewrite advanced_win, advanced_player.
  rewrite cancel_nothing_pending by exact Hnil.
  simpl. repeat split.
Qed.

Lemma cancel_only_held (h : option nat) (w : Window) :
  (forall k, In k (pending w) -> h = Some k) ->
  pending (cancelAnimationFrame h w) = [].
Proof.
  intro H. destruct h as [n|]; simpl.
  - induction (pending w) as [|k l IH]; [reflexivity|]. simpl.
    assert (E : Some n = Some k) by (apply H; now left).
    injection E as ->. rewrite Nat.eqb_refl. simpl.
    apply IH. intros j Hj. apply H. now right.
  - destruct (pending w) as [|k l]; [reflexivity|].
    discriminate (H k (or_introl eq_refl)).
Qed.

(** X8.  [init()] called between frames restarts the loop without
    doubling it: when nothing is pending but, at most, the callback of the
    handle held, and the respawned world is collision-free, [init()]
    returns with exactly one callback pending, under the new handle it
    holds; so it does again when called once more. *)
Theorem init_between_frames_keeps_one_loop (fuel : nat) (s : State) :
  (forall k, In k (pending (win s)) -> requestAnimationFrameID s = Some k) ->
  quiet (ACTORS (respawned s)) = true ->
  exists s' : State,
    init (S fuel) s = Some s'
    /\ pending (win s') = [nextHandle (win s)]
    /\ requestAnimationFrameID s' = Some (nextHandle (win s))
    /\ (forall k, In k (pending (win s')) -> requestAnimationFrameID s' = Some k)
    /\ life (player (ACTORS s')) = life (player (ACTORS s))
    /\ score (player (ACTORS s')) = score (player (ACTORS s)).
Proof.
  intros Hheld Hq. exists (reinit s). split; [now apply init_quiet|].
  destruct (reinit_shape s) as (now & dt & es & e0 & e1 & Hlen & Hs).
  rewrite Hs. simpl. rewrite (@cancel_only_held _ _ Hheld). simpl.
  repeat split. intros k [<-|[]]. reflexivity.
Qed.

Lemma existsb_filtered_out (h : nat) (l : list nat) :
  existsb (Nat.eqb h) (filter (fun k => negb (Nat.eqb k h)) l) = false.
Proof.
  induction l as [|k l IH]; [reflexivity|]. simpl.
  destruct (Nat.eqb k h) eqn:E; simpl; [exact IH|].
  rewrite Nat.eqb_sym, E. exact IH.
Qed.

(** X9.  [reset()] called between frames stops the loop: the callback of
    the handle held no longer runs [main] when its frame comes, and every
    other callback stays as it was. *)
Theorem reset_stops_the_loop (fuel h : nat) (s : State) :
  requestAnimationFrameID s = Some h ->
  fire fuel h (reset s) = Some (reset s)
  /\ forall k, k <> h ->
       (In k (pending (win (reset s))) <-> In k (pending (win s))).
Proof.
  intro Hh. split.
  - unfold fire. rewrite reset_win, Hh. simpl.
    now rewrite existsb_filtered_out.
  - intros k Hk. rewrite reset_win, Hh, cancel_pending_In. tauto.
Qed.

End Frames.

(** ** The resolver and the call record *)

Section Resolver.

Context {app : App}.






(** *** A respawn that is never safe *)

Lemma enemy_loop_first_hit_fails init (s : State) :
  init (dec_life s) = None ->
  forall suffix prefix,
    allEnemies (ACTORS s) = prefix ++ suffix ->
    existsb (fun e => overlaps (player (ACTORS s)) (ex e) (ey e)) suffix = true ->
    forEach_index (enemy_check init)
                  (seq (List.length prefix) (List.length suffix)) s = None.
Proof.
  intro Hinit. induction suffix as [|e rest IH]; intros prefix Hsplit Hex.
  - discriminate.
  - simpl. unfold enemy_check at 1.
    rewrite Hsplit, nth_error_app2, Nat.sub_diag by apply Nat.le_refl. simpl.
    destruct (overlaps (player (ACTORS s)) (ex e) (ey e)) eqn:E.
    + now rewrite Hinit.
    + simpl in Hex. rewrite E in Hex. simpl in Hex.
      specialize (IH (prefix ++ [e])).
      rewrite length_app, Nat.add_comm in IH. simpl in IH. apply IH; [|exact Hex].
      now rewrite <- app_assoc.
Qed.

Lemma respawned_enemies_length (s : State) :
  List.length (allEnemies (ACTORS (respawned s)))
  = List.length (allEnemies (ACTORS s)).
Proof.
  unfold respawned, advanced, init_begin, read_clock.
  destruct (Date_now (env (reset s))) as [t e]. simpl.
  destruct (Date_now e) as [now e']. simpl.
  rewrite updateEntities_ACTORS. simpl.
  rewrite forEach_own_length, reset_ACTORS. simpl. apply forEach_own_length.
Qed.

(** X11.  [init()] has no guard against its own re-entry: when the actors
    are such that the respawned world always has an enemy's box on the
    player, each [init()] calls the next through [main], [update] and the
    resolver, and the call never returns, whatever the depth of the stack. *)
Theorem init_never_returns_on_unsafe_respawn (fuel : nat) (s : State) :
  (forall t, allEnemies (ACTORS t) <> [] ->
             enemy_hit (ACTORS (respawned t)) = true) ->
  allEnemies (ACTORS s) <> [] ->
  init fuel s = None.
Proof.
  intro Hbad. revert s. induction fuel as [|fuel IH]; intros s Hne.
  - reflexivity.
  - unfold init, init_with. rewrite main_unfold.
    change (advanced (init_begin s)) with (respawned s).
    assert (Hne' : allEnemies (ACTORS (dec_life (respawned s))) <> []).
    { simpl. intro E. apply Hne. apply length_zero_iff_nil.
      rewrite <- respawned_enemies_length, E. reflexivity. }
    unfold checkCollisions, checkCollisions_with.
    unfold enemy_indices.
    pose proof (enemy_loop_first_hit_fails (init fuel) (respawned s)
                  (IH _ Hne') (allEnemies (ACTORS (respawned s))) []
                  eq_refl (Hbad s Hne)) as L.
    cbn [List.length] in L. now rewrite L.
Qed.

End Resolver.

(** ** The tolerance box, again *)



(** ** [render] *)

Section Rendering.

Context {app : App}.

Lemma drawGrid_tiles :
  Forall (fun c => exists img x y,
              c = CDrawImage img x y
              /\ In img rowImages /\ In img preloaded
              /\ 0 <= x /\ x + 101 <= inject_Z CANVAS_WIDTH
              /\ 0 <= y /\ y < inject_Z CANVAS_HEIGHT)
         drawGrid.
Proof.
  unfold drawGrid, numRows, numCols, CANVAS_WIDTH, CANVAS_HEIGHT. simpl.
  repeat (constructor;
          [eexists _, _, _; split; [reflexivity|];
           split; [simpl; repeat (first [left; reflexivity | right])|];
           split; [simpl; repeat (first [left; reflexivity | right])|];
           repeat split; unfold Qle, Qlt; simpl; lia |]).
  constructor.
Qed.

(** X13.  [render()] redraws the whole board before any actor, and the
    player last.  The grid is drawn row by row, five tiles of the row's
    image each, at steps of 101 across and 83 down; every tile lies
    within the width of the canvas and starts within its height, and its
    image is one of those handed to [Resources.load].  Then come the gem,
    the heart, the enemies in order, the player's text and the player.
    Nothing but the record of calls changes. *)
Theorem render_board_then_actors (s : State) :
  List.length drawGrid = (numRows * numCols)%nat
  /\ (forall row col, (row < numRows)%nat -> (col < numCols)%nat ->
        nth_error drawGrid (row * numCols + col)
        = Some (CDrawImage (nth row rowImages ""%string)
                           (inject_Z (Z.of_nat col * 101))
                           (inject_Z (Z.of_nat row * 83))))
  /\ Forall (fun c => exists img x y,
                 c = CDrawImage img x y
                 /\ In img rowImages /\ In img preloaded
                 /\ 0 <= x /\ x + 101 <= inject_Z CANVAS_WIDTH
                 /\ 0 <= y /\ y < inject_Z CANVAS_HEIGHT)
            drawGrid
  /\ calls (render s)
     = calls s ++ drawGrid
       ++ [CRender TheGem; CRender TheHeart]
       ++ map (fun i => CRender (TheEnemy i))
              (seq 0 (List.length (allEnemies (ACTORS s))))
       ++ [CRenderText; CRender ThePlayer]
  /\ ACTORS (render s) = ACTORS s
  /\ win (render s) = win s
  /\ lastTime (render s) = lastTime s
  /\ requestAnimationFrameID (render s) = requestAnimationFrameID s.
Proof.
  split; [reflexivity|]. split.
  { unfold numRows, numCols. intros row col Hr Hc.
    do 6 (destruct row as [|row]; [do 5 (destruct col as [|col]; [reflexivity|]); lia|]).
    lia. }
  split; [exact drawGrid_tiles|].
  unfold render, renderEntities, log. cbn [calls ACTORS win lastTime
    requestAnimationFrameID].
  rewrite <- app_assoc. repeat split.
Qed.

End Rendering.

(** * The further properties on the sample worlds *)

Lemma score_and_enemies_kept_sample :
  exists s' : State,
    main 2 Sample.enemy_world = Some s'
    /\ (score (player (ACTORS Sample.enemy_world))
        <= score (player (ACTORS s')))%Z
    /\ List.length (allEnemies (ACTORS s')) = 3%nat.
Proof.
  destruct (main 2 Sample.enemy_world) as [s'|] eqn:E.
  - exists s'. split; [reflexivity|].
    apply (@score_and_enemies_kept Sample.sample 2 Sample.enemy_world s'
             (or_introl E)).
  - vm_compute in E. discriminate E.
Defined.

Lemma player_moves_only_to_spawn_sample :
  exists s' : State,
    checkCollisions 1 Sample.enemy_world = Some s'
    /\ ((px (player (ACTORS s')) = 70 /\ py (player (ACTORS s')) = 70)
        \/ (px (player (ACTORS s')) = 200 /\ py (player (ACTORS s')) = 350)).
Proof.
  destruct (checkCollisions 1 Sample.enemy_world) as [s'|] eqn:E.
  - exists s'. split; [reflexivity|].
    apply (@player_moves_only_to_spawn Sample.sample 1 Sample.enemy_world s'
             (or_intror (or_intror E))).
  - vm_compute in E. discriminate E.
Defined.

Lemma handles_stay_fresh_sample :
  exists s' : State,
    init 1 Sample.start_world = Some s'
    /\ (nextHandle (win Sample.start_world) <= nextHandle (win s'))%nat
    /\ (handles_fresh (win Sample.start_world) -> handles_fresh (win s')).
Proof.
  destruct (init 1 Sample.start_world) as [s'|] eqn:E.
  - exists s'. split; [reflexivity|].
    apply (@handles_stay_fresh Sample.sample 1 Sample.start_world s'
             (or_intror (or_introl E))).
  - vm_compute in E. discriminate E.
Defined.

Lemma frame_ends_scheduled_sample :
  exists s' : State,
    main 1 Scenes.heart_world = Some s'
    /\ exists h : nat,
         requestAnimationFrameID s' = Some h
         /\ In h (pending (win s'))
         /\ nextHandle (win s') = S h.
Proof.
  destruct (main 1 Scenes.heart_world) as [s'|] eqn:E.
  - exists s'. split; [reflexivity|].
    apply (@frame_ends_scheduled Sample.sample 1 Scenes.heart_world s'
             (or_introl E)).
  - vm_compute in E. discriminate E.
Defined.

Lemma quiet_frame_keeps_one_loop_sample :
  exists s' : State,
    fire 1 0 Scenes.quiet_world = Some s'
    /\ ACTORS s' = ACTORS (advanced (take_callback 0 Scenes.quiet_world))
    /\ player (ACTORS s') = player (ACTORS Scenes.quiet_world)
    /\ gem (ACTORS s') = gem (ACTORS Scenes.quiet_world)
    /\ lastTime s' = 1016%Z
    /\ pending (win s') = [1%nat]
    /\ requestAnimationFrameID s' = Some 1%nat.
Proof.
  apply (@quiet_frame_keeps_one_loop Sample.sample 0 0 Scenes.quiet_world);
    vm_compute; reflexivity.
Defined.

Lemma heart_frame_keeps_one_loop_sample :
  exists s' : State,
    fire 1 0 Scenes.heart_world = Some s'
    /\ life (player (ACTORS s')) = (3 + 1)%Z
    /\ notVisible (heart (ACTORS s')) = true
    /\ px (player (ACTORS s')) = 200
    /\ py (player (ACTORS s')) = 350
    /\ hx (heart (ACTORS s')) = -100
    /\ pending (win s') = [1%nat]
    /\ requestAnimationFrameID s' = Some 1%nat.
Proof.
  apply (@heart_frame_keeps_one_loop Sample.sample 0 0 Scenes.heart_world);
    vm_compute; reflexivity.
Defined.

Lemma gem_frame_leaves_two_callbacks_sample :
  exists s' : State,
    fire 2 0 Scenes.gem_world = Some s'
    /\ score (player (ACTORS s')) = (0 + 1)%Z
    /\ pending (win s') = [1%nat; 2%nat]
    /\ requestAnimationFrameID s' = Some 2%nat.
Proof.
  apply (@gem_frame_leaves_two_callbacks Sample.sample 0 0 Scenes.gem_world);
    vm_compute; reflexivity.
Defined.

Lemma init_between_frames_keeps_one_loop_sample :
  exists s' : State,
    init 1 Scenes.quiet_world = Some s'
    /\ pending (win s') = [1%nat]
    /\ requestAnimationFrameID s' = Some 1%nat
    /\ (forall k, In k (pending (win s')) -> requestAnimationFrameID s' = Some k)
    /\ life (player (ACTORS s')) = 3%Z
    /\ score (player (ACTORS s')) = 0%Z.
Proof.
  apply (@init_between_frames_keeps_one_loop Sample.sample 0 Scenes.quiet_world).
  - intros k [<-|[]]. reflexivity.
  - vm_compute. reflexivity.
Defined.

Lemma reset_stops_the_loop_sample :
  fire 5 0 (reset Sample.running_world) = Some (reset Sample.running_world)
  /\ forall k, k <> 0%nat ->
       (In k (pending (win (reset Sample.running_world)))
        <-> In k (pending (win Sample.running_world))).
Proof.
  apply (@reset_stops_the_loop Sample.sample 5 0 Sample.running_world).
  reflexivity.
Defined.


Lemma stuck_respawn_is_unsafe :
  forall t : @State Stuck.stuck,
    allEnemies (ACTORS t) <> [] -> enemy_hit (ACTORS (respawned t)) = true.
Proof.
  intros t Hne. unfold respawned, advanced, init_begin, read_clock.
  simpl. rewrite updateEntities_ACTORS. unfold set_env, set_lastTime.
  cbn [ACTORS env]. rewrite reset_ACTORS. unfold enemy_hit.
  cbn [player allEnemies fst].
  destruct (allEnemies (ACTORS t)) as [|e l]; [now elim Hne|].
  generalize (env t) as e0, (env (reset t)) as e1. intros e0 e1. simpl.
  destruct (forEach_own _ l e0) as [l1 e2]. simpl.
  destruct (forEach_own _ l1 e1) as [l2 e3].
  reflexivity.
Qed.

Lemma init_never_returns_on_unsafe_respawn_sample :
  init 50 Stuck.world = None.
Proof.
  apply (@init_never_returns_on_unsafe_respawn Stuck.stuck 50 Stuck.world
           stuck_respawn_is_unsafe).
  discriminate.
Defined.
